(** * gee_pipeline: the compositing pipeline, the index library, the
    SOF/SILO samplers and the run orchestrator, embedded from the Python
    sources and checked against the written specification.

    Earth Engine objects are deferred server-side computations.  The
    embedding gives each Python function the value its expression
    evaluates to: an object, the null object, or an evaluation error. *)

From Stdlib Require Import ZArith QArith Qround Qabs Lqa List String Ascii Bool Lia DecimalString PrimFloat FloatOps SpecFloat Uint63.
From Stdlib Require FloatAxioms.
From stdpp Require Import base gmap strings list.

Set Warnings "-register-all,-inexact-float".

Local Open Scope string_scope.
Local Open Scope Z_scope.

(** ** Earth Engine values *)

Module ee.

(** The value of a deferred expression.  [Null] is Earth Engine's null
    (what [Collection.first] gives on an empty collection); [Failure] is
    an error raised when the expression is evaluated. *)
Inductive computed (A : Type) : Type :=
| Value (a : A)
| Null
| Failure (msg : string).
Arguments Value {A} a.
Arguments Null {A}.
Arguments Failure {A} msg.

(** An algorithm argument that has to be present: null is refused with
    the error Earth Engine reports for a missing parameter. *)
Definition required {A B : Type} (algorithm param : string)
    (c : computed A) (k : A -> computed B) : computed B :=
  match c with
  | Value a => k a
  | Null => Failure (algorithm ++ ": Parameter '" ++ param ++ "' is required.")
  | Failure m => Failure m
  end.

(** [Collection.map]: the function is applied to every element, in
    order; an element on which it fails fails the whole collection. *)
Fixpoint map_computed {A B : Type} (f : A -> computed B) (l : list A)
    : computed (list B) :=
  match l with
  | [] => Value []
  | x :: l' =>
      required "Collection.map" "baseAlgorithm" (f x) (fun y =>
      required "Collection.map" "collection" (map_computed f l') (fun ys =>
      Value (y :: ys)))
  end.

(** Metadata property values. *)
Inductive prop : Type :=
| PStr (s : string)
| PBool (b : bool)
| PNum (z : Z).

(** The index formulas, as the operator tree the client library builds:
    [Sel b] is [i.select(b)] on the image the formula is applied to. *)
Inductive formula : Type :=
| Sel (b : string)
| Const (q : Q)
| Add (x y : formula)
| Subtract (x y : formula)
| Multiply (x y : formula)
| Divide (x y : formula)
| Sqrt (x : formula)
| Pow (x : formula) (n : nat)
| EqZero (x : formula)
| Where (input test value : formula)
| NormalizedDifference (b1 b2 : string).

(** What a band's pixels are: a stored raster band, an index formula
    over the bands of the image it was computed from, or the mosaic of
    the same band across several images. *)
Inductive pixels : Type :=
| Stored (id : string)
| Derived (f : formula) (inputs : list (string * pixels))
| Mosaic (layers : list pixels).

Record Band : Type := mkBand { band_name : string; band_data : pixels }.

Record Image : Type := mkImage {
  bands : list Band;
  props : gmap string prop
}.

Definition ImageCollection : Type := list Image.

Definition bandNames (img : Image) : list string := map band_name (bands img).

(** The canonical roles of the band-name contract. *)
Definition CANONICAL : list string :=
  ["BLUE"; "GREEN"; "RED"; "NIR"; "RE1"; "RE2"; "RE3"; "RE4"; "SWIR1"; "SWIR2"].

Definition string_of_nat (n : nat) : string :=
  NilEmpty.string_of_uint (Nat.to_uint n).

Definition has_name (names : list string) (n : string) : bool :=
  existsb (String.eqb n) names.

(** The first [n_k], k = k0, k0+1, ..., that is not yet a band name. *)
Fixpoint free_suffix (fuel : nat) (names : list string) (n : string)
    (k : nat) : string :=
  let cand := n ++ "_" ++ string_of_nat k in
  match fuel with
  | O => cand
  | S fuel' =>
      if has_name names cand then free_suffix fuel' names n (S k) else cand
  end.

Definition has_bands (img : Image) (names : list string) : bool :=
  forallb (has_name (bandNames img)) names.

(** [Image.addBands(srcImg)] with its default [overwrite=false]: a band
    whose name is taken is added under a numeric suffix ([foo] becomes
    [foo_1] unless [foo_1] exists, then [foo_2], ...). *)
Definition free_name (names : list string) (n : string) : string :=
  if has_name names n
  then free_suffix (List.length names) names n 1
  else n.

Definition add_band (dst : list Band) (b : Band) : list Band :=
  dst ++ [mkBand (free_name (map band_name dst) (band_name b)) (band_data b)].

(** The names under which bands called [keys] are added, one after the
    other, to bands called [taken]. *)
Fixpoint added_names (taken keys : list string) : list string :=
  match keys with
  | [] => []
  | k :: keys' =>
      let n := free_name taken k in
      n :: added_names (taken ++ [n]) keys'
  end.

(** The result keeps the metadata of the first image. *)
Definition addBands (dst src : Image) : Image :=
  mkImage (fold_left add_band (bands src) (bands dst)) (props dst).

(** [Image.set]: every key of the dictionary is written. *)
Definition set (img : Image) (k : string) (v : prop) : Image :=
  mkImage (bands img) (<[k := v]> (props img)).

(** [Image.rename(names)] with one new name per band. *)
Definition rename (img : Image) (new : list string) : computed Image :=
  if Nat.eqb (List.length new) (List.length (bands img))
  then Value (mkImage
                (map (fun p : string * Band => mkBand (fst p) (band_data (snd p)))
                     (combine new (bands img)))
                (props img))
  else Failure "Image.rename: The number of names must match the number of bands.".

(** [ee.String(img.get(k))]: null when the property is absent. *)
Definition get_string (img : Image) (k : string) : computed string :=
  match props img !! k with
  | Some (PStr s) => Value s
  | Some _ => Failure "String: Parameter 'input' has the wrong type."
  | None => Null
  end.

(** The pixels of the band called [n]. *)
Definition band_of (img : Image) (n : string) : option pixels :=
  band_data <$> List.find (fun b => String.eqb (band_name b) n) (bands img).

Definition fmap {A B : Type} (f : A -> B) (c : computed A) : computed B :=
  match c with
  | Value a => Value (f a)
  | Null => Null
  | Failure m => Failure m
  end.

(** [img.bandNames().size().getInfo()]. *)
Definition band_count (img : computed Image) : computed nat :=
  required "Image.bandNames" "image" img (fun img =>
  Value (List.length (bands img))).

(** [Collection.first]. *)
Definition first {A : Type} (c : list A) : computed A :=
  match c with
  | [] => Null
  | x :: _ => Value x
  end.

(** [Collection.iterate(function, first)]: a left fold over every
    element of the collection, starting from [first]. *)
Definition iterate {A S : Type} (f : A -> computed S -> computed S)
    (init : computed S) (c : list A) : computed S :=
  fold_left (fun prev x => f x prev) c init.

End ee.

(** ** cube.py *)

Module cube.
Import ee.

Definition rename_with_date (img : Image) : computed Image :=
  let d := get_string img "date" in
  let old := bandNames img in
  let new := map_computed
    (fun b => required "String.cat" "string2" d (fun d => Value (b ++ "_" ++ d)))
    old in
  required "Image.rename" "names" new (fun new => rename img new).

Definition assemble_cube (ts : ImageCollection) : computed Image :=
  required "Collection.first" "collection" (map_computed rename_with_date ts)
  (fun renamed =>
  let first := first renamed in
  let _acc (img : Image) (prev : computed Image) : computed Image :=
    required "Image.addBands" "dstImg" prev (fun prev => Value (addBands prev img)) in
  iterate _acc first renamed).

End cube.


(** ** Dates: milliseconds since the Unix epoch, proleptic Gregorian
    calendar, UTC *)

Module date.
Import ee.

Definition MS_PER_DAY : Z := 86400000.

(** The average month behind [Date.difference(_, 'month')]:
    365.2425 / 12 days. *)
Definition MS_PER_MONTH : Z := 2629746000.

Definition days_from_civil (y m d : Z) : Z :=
  let y' := if m <=? 2 then y - 1 else y in
  let era := y' / 400 in
  let yoe := y' - era * 400 in
  let mp := if m <=? 2 then m + 9 else m - 3 in
  let doy := (153 * mp + 2) / 5 + d - 1 in
  let doe := yoe * 365 + yoe / 4 - yoe / 100 + doy in
  era * 146097 + doe - 719468.

Definition civil_from_days (z : Z) : Z * Z * Z :=
  let z := z + 719468 in
  let era := z / 146097 in
  let doe := z - era * 146097 in
  let yoe := (doe - doe / 1460 + doe / 36524 - doe / 146096) / 365 in
  let doy := doe - (365 * yoe + yoe / 4 - yoe / 100) in
  let mp := (5 * doy + 2) / 153 in
  let d := doy - (153 * mp + 2) / 5 + 1 in
  let m := if mp <? 10 then mp + 3 else mp - 9 in
  let y := yoe + era * 400 in
  (if m <=? 2 then y + 1 else y, m, d).

Definition is_leap (y : Z) : bool :=
  ((y mod 4 =? 0) && negb (y mod 100 =? 0)) || (y mod 400 =? 0).

Definition days_in_month (y m : Z) : Z :=
  if m =? 2 then (if is_leap y then 29 else 28)
  else if (m =? 4) || (m =? 6) || (m =? 9) || (m =? 11) then 30
  else 31.

(** [ee.Date('YYYY-MM-DD')] at midnight. *)
Definition of_civil (y m d : Z) : Z := days_from_civil y m d * MS_PER_DAY.

Definition year_month (t : Z) : Z * Z :=
  let '(y, m, _) := civil_from_days (t / MS_PER_DAY) in (y, m).

(** [Date.advance(i, 'month')]: the month moves by [i], the day of the
    month is kept unless the target month is shorter, the time of day is
    kept. *)
Definition advance_month (t i : Z) : Z :=
  let days := t / MS_PER_DAY in
  let ms := t mod MS_PER_DAY in
  let '(y, m, d) := civil_from_days days in
  let idx := y * 12 + (m - 1) + i in
  let y' := idx / 12 in
  let m' := idx mod 12 + 1 in
  let d' := Z.min d (days_in_month y' m') in
  days_from_civil y' m' d' * MS_PER_DAY + ms.

(** [end.difference(start, 'month')]: a fractional number of average
    months. *)
Definition difference_month (t_end t_start : Z) : Q :=
  inject_Z (t_end - t_start) / inject_Z MS_PER_MONTH.

(** [Number.int()]: the fraction is cut off, towards zero. *)
Definition Number_int (q : Q) : Z := Z.quot (Qnum q) (Z.pos (Qden q)).

(** [ee.List.sequence(start, end)] with step 1: empty when
    [end < start]. *)
Definition List_sequence (a b : Z) : list Z :=
  map (fun k => a + Z.of_nat k) (seq 0 (Z.to_nat (b - a + 1))).

Definition pad (width : nat) (s : string) : string :=
  string_of_list_ascii (repeat "0"%char (width - String.length s)) ++ s.

(** [Date.format('YYYY-MM')], for the years 0 to 9999. *)
Definition format_YYYY_MM (t : Z) : string :=
  let '(y, m) := year_month t in
  pad 4 (string_of_nat (Z.to_nat y)) ++ "-" ++ pad 2 (string_of_nat (Z.to_nat m)).

Definition num_prop (img : Image) (k : string) : option Z :=
  match props img !! k with
  | Some (PNum t) => Some t
  | _ => None
  end.

(** [Image.date()]: read from [system:time_start]. *)
Definition time_start (img : Image) : option Z :=
  num_prop img "system:time_start".

Definition image_date (img : Image) : computed Z :=
  match time_start img with
  | Some t => Value t
  | None => Failure "Image.date: Image does not have a 'system:time_start' property."
  end.

(** The order [Collection.sort] puts two property values in; an absent
    value is taken to come before every number. *)
Definition key_leb (a b : option Z) : bool :=
  match a, b with
  | None, _ => true
  | Some _, None => false
  | Some x, Some y => x <=? y
  end.

Fixpoint insert_sorted (k : string) (ascending : bool) (x : Image)
    (l : list Image) : list Image :=
  match l with
  | [] => [x]
  | y :: l' =>
      let before := if ascending
                    then key_leb (num_prop x k) (num_prop y k)
                    else key_leb (num_prop y k) (num_prop x k) in
      if before then x :: y :: l' else y :: insert_sorted k ascending x l'
  end.

(** [Collection.sort(property, ascending)]. *)
Definition sort (k : string) (ascending : bool) (c : ImageCollection)
    : ImageCollection :=
  fold_right (insert_sorted k ascending) [] c.

(** [Collection.filterDate(start, end)]: start inclusive, end
    exclusive. *)
Definition filterDate (t0 t1 : Z) (c : ImageCollection) : ImageCollection :=
  List.filter (fun img => match time_start img with
                     | Some t => (t0 <=? t) && (t <? t1)
                     | None => false
                     end) c.

(** [Collection.mosaic()]: one band per band of the collection's images,
    composited across them; no band when the collection is empty; the
    result carries no metadata. *)
Definition mosaic (c : ImageCollection) : Image :=
  match c with
  | [] => mkImage [] ∅
  | i :: _ =>
      mkImage
        (map (fun b => mkBand (band_name b)
                         (Mosaic (omap (fun img => band_of img (band_name b)) c)))
             (bands i))
        ∅
  end.

(** The [date] labels of a collection. *)
Definition month_labels (c : ImageCollection) : list (option prop) :=
  map (fun i => props i !! "date") c.

(** The latest and the earliest of [t0] and [times]. *)
Definition latest (t0 : Z) (times : list Z) : Z := fold_right Z.max t0 times.
Definition earliest (t0 : Z) (times : list Z) : Z := fold_right Z.min t0 times.

End date.

(** ** timeseries.py *)

Module timeseries.
Import ee date.

Definition by_month (ts : ImageCollection) (d : Z) : Image :=
  let col := filterDate d (advance_month d 1) ts in
  set (mosaic col) "date" (PStr (format_YYYY_MM d)).

Definition safe_monthly_mosaics (ts : ImageCollection)
    : computed ImageCollection :=
  let first := first ts in
  let last := ee.first (sort "system:time_start" false ts) in
  required "Image.date" "image" first (fun first =>
  required "Image.date" "image" last (fun last =>
  required "Date" "date" (image_date first) (fun start =>
  required "Date" "date" (image_date last) (fun end_ =>
  let nmonths := Number_int (difference_month end_ start) in
  let months := map (fun i => advance_month start i) (List_sequence 0 nmonths) in
  Value (map (by_month ts) months))))).

End timeseries.

(** ** indices.py *)

Module indices.
Import ee date.

(** Python's [str.strip] and [str.upper], on ASCII text. *)
Definition is_space (c : ascii) : bool :=
  let n := nat_of_ascii c in
  ((9 <=? n) && (n <=? 13) || (28 <=? n) && (n <=? 32))%nat.

Fixpoint lstrip (s : list ascii) : list ascii :=
  match s with
  | c :: s' => if is_space c then lstrip s' else s
  | [] => []
  end.

Definition strip (s : string) : string :=
  string_of_list_ascii
    (rev (lstrip (rev (lstrip (list_ascii_of_string s))))).

Definition upper_char (c : ascii) : ascii :=
  let n := nat_of_ascii c in
  if ((97 <=? n) && (n <=? 122))%nat then ascii_of_nat (n - 32) else c.

Definition upper (s : string) : string :=
  string_of_list_ascii (map upper_char (list_ascii_of_string s)).

Definition _safe_ratio (num den : formula) : formula :=
  let eps := Const (1 # 1000000) in
  let den_safe := Where den (EqZero den) eps in
  Divide num den_safe.

(** The registry, in the order of the dictionary; an expression string
    is given as the operator tree it parses to. *)
Definition INDEX_FUNCS : list (string * formula) :=
  [ ("NDVI", NormalizedDifference "NIR" "RED");
    ("EVI",
       Multiply (Const (5 # 2))
         (Divide (Subtract (Sel "NIR") (Sel "RED"))
            (Add (Subtract (Add (Sel "NIR") (Multiply (Const 6) (Sel "RED")))
                           (Multiply (Const (15 # 2)) (Sel "BLUE")))
                 (Const 1))));
    ("NDWI", NormalizedDifference "GREEN" "NIR");
    ("EVI2",
       Multiply (Const (5 # 2))
         (Divide (Subtract (Sel "NIR") (Sel "RED"))
            (Add (Add (Sel "NIR") (Multiply (Const (12 # 5)) (Sel "RED")))
                 (Const 1))));
    ("GNDVI", NormalizedDifference "NIR" "GREEN");
    ("GCI", Subtract (_safe_ratio (Sel "NIR") (Sel "GREEN")) (Const 1));
    ("SAVI",
       Multiply
         (Divide (Subtract (Sel "NIR") (Sel "RED"))
            (Add (Add (Sel "NIR") (Sel "RED")) (Const (1 # 2))))
         (Add (Const 1) (Const (1 # 2))));
    ("MSAVI2",
       Divide
         (Subtract
            (Add (Multiply (Const 2) (Sel "NIR")) (Const 1))
            (Sqrt (Subtract
                     (Pow (Add (Multiply (Const 2) (Sel "NIR")) (Const 1)) 2)
                     (Multiply (Const 8) (Subtract (Sel "NIR") (Sel "RED"))))))
         (Const 2));
    ("WDRVI",
       Divide (Subtract (Multiply (Const (1 # 10)) (Sel "NIR")) (Sel "RED"))
              (Add (Multiply (Const (1 # 10)) (Sel "NIR")) (Sel "RED")));
    ("NDRE", NormalizedDifference "NIR" "RE4");
    ("CIre", Subtract (_safe_ratio (Sel "NIR") (Sel "RE4")) (Const 1));
    ("NDMI", NormalizedDifference "NIR" "SWIR1");
    ("NBR", NormalizedDifference "NIR" "SWIR2");
    ("MNDWI", NormalizedDifference "GREEN" "SWIR1") ].

Definition INDICES_REQUIRE_20M : list string :=
  ["NDRE"; "CIRE"; "NDMI"; "NBR"; "MNDWI"].

(** The bands a formula selects from its image, in order of first
    occurrence. *)
Fixpoint selections (f : formula) : list string :=
  match f with
  | Sel b => [b]
  | Const _ => []
  | Add x y | Subtract x y | Multiply x y | Divide x y =>
      selections x ++ selections y
  | Sqrt x | Pow x _ | EqZero x => selections x
  | Where i t v => selections i ++ selections t ++ selections v
  | NormalizedDifference b1 b2 => [b1; b2]
  end.

Definition select (img : Image) (b : string) : computed (string * pixels) :=
  match band_of img b with
  | Some p => Value (b, p)
  | None => Failure ("Image.select: Pattern '" ++ b ++ "' did not match any bands.")
  end.

(** [INDEX_FUNCS[key](img)]: a one-band image named [key]; evaluation
    fails when the image lacks a band the formula selects. *)
Definition index_image (key : string) (f : formula) (img : Image)
    : computed Image :=
  required "Image.select" "input"
    (map_computed (select img) (remove_dups (selections f)))
    (fun inputs => Value (mkImage [mkBand key (Derived f inputs)] ∅)).

Fixpoint assoc {A : Type} (k : string) (l : list (string * A)) : option A :=
  match l with
  | [] => None
  | (k', v) :: l' => if String.eqb k k' then Some v else assoc k l'
  end.

Definition canon : gmap string string :=
  fold_left (fun m k => <[upper k := k]> m) (map fst INDEX_FUNCS) ∅.

Definition normalise (names : option (list (option string))) : list string :=
  match names with
  | None => []
  | Some l => omap (fun s => option_map (fun s => upper (strip s)) s) l
  end.

Definition add_index (img : Image) (out : computed Image) (n : string)
    : computed Image :=
  match canon !! n with
  | None | Some "" => out
  | Some key =>
      match assoc key INDEX_FUNCS with
      | None => Failure ("KeyError: " ++ key)
      | Some f =>
          required "Image.addBands" "dstImg" out (fun out =>
          required "Image.addBands" "srcImg" (index_image key f img) (fun idx =>
          Value (addBands out idx)))
      end
  end.

Definition apply_indices (img : Image) (names : option (list (option string)))
    : computed Image :=
  let names_norm := normalise names in
  let out := fold_left (add_index img) names_norm (Value img) in
  let has_20m :=
    existsb (fun n => has_name INDICES_REQUIRE_20M n) names_norm in
  required "Image.set" "image" out (fun out =>
  Value (set out "has_20m_indices" (PBool has_20m))).

(** [INDEX_FUNCS[key]]. *)
Definition formula_of (key : string) : formula :=
  default (Const 0) (assoc key INDEX_FUNCS).

(** The registry entry a normalised name selects, if any. *)
Definition recognised (n : string) : option (string * formula) :=
  match canon !! n with
  | None | Some "" => None
  | Some key => option_map (pair key) (assoc key INDEX_FUNCS)
  end.

(** The requested entries the registry knows, in request order. *)
Definition requested (names : option (list (option string)))
    : list (string * formula) :=
  omap recognised (normalise names).


(** The bands the formulas of the recognised requests select. *)
Definition needed (names : option (list (option string))) : list string :=
  flat_map (fun kf : string * formula => selections (snd kf)) (requested names).



(** Whether an element of a request list names a registry entry. *)
Definition known (s : option string) : bool :=
  match s with
  | Some s => match recognised (upper (strip s)) with Some _ => true | None => false end
  | None => false
  end.

(** *** Pixel values of a formula, in exact rational arithmetic.

    [px b] is the value of band [b] at the pixel; the square root is
    left to the caller.  [Image.divide] gives 0 on a zero divisor. *)
Section Pixel.
Variable sqrt : Q -> Q.
Variable px : string -> Q.

Fixpoint eval (f : formula) : Q :=
  match f with
  | Sel b => px b
  | Const q => q
  | Add x y => eval x + eval y
  | Subtract x y => eval x - eval y
  | Multiply x y => eval x * eval y
  | Divide x y => eval x / eval y
  | Sqrt x => sqrt (eval x)
  | Pow x n => Qpower (eval x) (Z.of_nat n)
  | EqZero x => if Qeq_bool (eval x) 0 then 1 else 0
  | Where i t v => if Qeq_bool (eval t) 0 then eval i else eval v
  | NormalizedDifference b1 b2 => (px b1 - px b2) / (px b1 + px b2)
  end%Q.

(** Every divisor met while the formula is evaluated at the pixel. *)
Fixpoint divisors (f : formula) : list Q :=
  match f with
  | Sel _ | Const _ => []
  | Add x y | Subtract x y | Multiply x y => divisors x ++ divisors y
  | Divide x y => divisors x ++ divisors y ++ [eval y]
  | Sqrt x | Pow x _ | EqZero x => divisors x
  | Where i t v => divisors i ++ divisors t ++ divisors v
  | NormalizedDifference b1 b2 => [(px b1 + px b2)%Q]
  end.

Definition divides_by_zero (f : formula) : bool :=
  existsb (fun d => Qeq_bool d 0) (divisors f).

End Pixel.

End indices.

(** ** Python values shared by the samplers and the orchestrator *)

Module py.

Inductive exn : Type :=
| ValueError (msg : string)
| RuntimeError (msg : string)
| AssertionError (msg : string)
| KeyError (key : string)
| UnboundLocalError (name : string)
| HTTPError (status : Z)
| ConnectionError (msg : string)
| OSError (msg : string)
| EEException (msg : string)
| OverflowError (msg : string).

Inductive result (A : Type) : Type :=
| Return (a : A)
| Raise (e : exn).
Arguments Return {A} a.
Arguments Raise {A} e.

Definition bind {A B : Type} (r : result A) (k : A -> result B) : result B :=
  match r with
  | Return a => k a
  | Raise e => Raise e
  end.

Definition fmap_result {A B : Type} (f : A -> B) (r : result A) : result B :=
  bind r (fun a => Return (f a)).

(** [round(x)]: to the nearest integer, a tie to the even one. *)
Definition round (q : Q) : Z :=
  let f := Qfloor q in
  match (q - inject_Z f ?= 1 # 2)%Q with
  | Lt => f
  | Gt => f + 1
  | Eq => if Z.even f then f else f + 1
  end.

(** The decimal digits of a natural number. *)
Definition digits_of (z : Z) : string :=
  NilEmpty.string_of_uint (N.to_uint (Z.to_N z)).

Definition string_of_Z (z : Z) : string :=
  if z <? 0 then "-" ++ digits_of (- z) else digits_of z.

(** [f"{x:.<d>f}"]: [x] rounded to [d] decimals (a tie to the even
    digit), the sign kept, at least one digit before the point. *)
Definition format_fixed (d : nat) (sign : bool) (magnitude : Q) : string :=
  let n := round (magnitude * inject_Z (10 ^ Z.of_nat d))%Q in
  let digits := date.pad (S d) (digits_of n) in
  let cut := (String.length digits - d)%nat in
  (if sign then "-" else "") ++ substring 0 cut digits ++ "."
    ++ substring cut d digits.

(** The same text for an exact decimal. *)
Definition format_Q (d : nat) (q : Q) : string :=
  format_fixed d (Qnum q <? 0) (Qabs q).

(** [s.replace(c, "")] for a one-character [c]. *)
Fixpoint remove_char (c : ascii) (s : string) : string :=
  match s with
  | EmptyString => EmptyString
  | String c' s' =>
      if Ascii.eqb c c' then remove_char c s' else String c' (remove_char c s')
  end.

End py.

(** ** silo.py *)

Module silo.
Import py.

Definition SILO_BASE : string := "https://www.longpaddock.qld.gov.au/cgi-bin/silo".

Definition VALID_CODES : list string :=
  ["R"; "X"; "N"; "V"; "D"; "E"; "S"; "C"; "L"; "J"; "H"; "G"; "F"; "T"; "A";
   "P"; "W"; "M"].

(** *** Snapping, on IEEE binary64 as Python computes it *)

(** The exact value of a finite double: its sign and its magnitude. *)
Definition float_value (x : float) : option (bool * Q) :=
  match Prim2SF x with
  | S754_zero s => Some (s, 0%Q)
  | S754_finite s m e =>
      Some (s, if (0 <=? e) then inject_Z (Z.pos m * 2 ^ e)
               else (inject_Z (Z.pos m) / inject_Z (2 ^ (- e)))%Q)
  | S754_infinity _ | S754_nan => None
  end.

Definition signed (v : bool * Q) : Q :=
  (if fst v then - snd v else snd v)%Q.

(** [round(x)] of a float: the nearest integer, a tie to the even one;
    NaN and the infinities have none. *)
Definition round_float (x : float) : result Z :=
  match float_value x with
  | Some v => Return (round (signed v))
  | None =>
      match Prim2SF x with
      | S754_nan => Raise (ValueError "cannot convert float NaN to integer")
      | _ => Raise (OverflowError "cannot convert float infinity to integer")
      end
  end.

(** [float(k)], as the product of an integer and a float takes it: the
    double nearest to [k], a tie to the even one. *)
Definition float_of_int (k : Z) : result float :=
  match binary_normalize prec emax k 0 false with
  | S754_infinity _ => Raise (OverflowError "int too large to convert to float")
  | sf => Return (SF2Prim sf)
  end.

Definition _snap05 (x : float) : result float :=
  bind (round_float (x / 0.05)) (fun k =>
  bind (float_of_int k) (fun fk =>
  Return (fk * 0.05)%float)).

(** The binary64 value of grid cell [k]: the product [k * 0.05] as the
    code computes it. *)
Definition grid (k : Z) : float :=
  (SF2Prim (binary_normalize prec emax k 0 false) * 0.05)%float.


(** The grid cells from [-n] to [n]. *)
Definition cells (n : nat) : list Z :=
  map (fun i => Z.of_nat i - Z.of_nat n) (seq 0 (2 * n + 1)).

(** [f"{x:.<d>f}"] of a float. *)
Definition format_float (d : nat) (x : float) : string :=
  match float_value x with
  | Some (s, q) => format_fixed d s q
  | None =>
      match Prim2SF x with
      | S754_infinity false => "inf"
      | S754_infinity true => "-inf"
      | _ => "nan"
      end
  end.

(** Whether the two-decimal text of grid cell [k] is the decimal
    [k / 20] itself. *)
Definition names_its_cell (k : Z) : bool :=
  String.eqb (format_float 2 (grid k)) (format_Q 2 (inject_Z k / 20)).

(** *** Configuration, points and requests *)

Record SILOPointsConfig : Type := {
  area_name : string;
  mode : string;
  points_path : option string;
  station_field : option string;
  variables : list string;
  date_start : string;
  date_end : string;
  username : string;
  password : string;
  fmt : string;
  retry_max : Z
}.

(** A vector file as [geopandas] reads it: its CRS, the point
    coordinates in EPSG:4326 (lon, lat), and its integer columns. *)
Record PointsFile : Type := {
  crs : option string;
  lonlat : list (float * float);
  int_column : string -> option (list Z)
}.

(** A row of [base_df]. *)
Inductive point : Type :=
| LonLat (lon lat : float)
| Station (station : Z).

Definition _load_points (read_file : string -> result PointsFile)
    (cfg : SILOPointsConfig) : result (list point) :=
  if String.eqb (mode cfg) "station" then
    match points_path cfg with
    | Some path =>
        bind (read_file path) (fun df =>
        match station_field cfg with
        | None => Raise (ValueError "station_field is required for mode='station'.")
        | Some fld =>
            match int_column df fld with
            | Some col => Return (map Station col)
            | None => Raise (KeyError fld)
            end
        end)
    | None => Raise (ValueError "Provide points_path with a station_field for mode='station'.")
    end
  else
    match points_path cfg with
    | Some path =>
        bind (read_file path) (fun gdf =>
        match crs gdf with
        | None => Raise (ValueError "Points file has no CRS.")
        | Some _ => Return (map (fun p => LonLat (fst p) (snd p)) (lonlat gdf))
        end)
    | None => Raise (ValueError "For mode='datadrill', provide a points_path with point geometry (CRS set).")
    end.

Definition _validate_vars (vars : list string) : result string :=
  let up := map (fun v => indices.upper (indices.strip v)) vars in
  let bad := List.filter (fun v => negb (ee.has_name VALID_CODES v)) up in
  match bad with
  | [] => Return (String.concat "" up)
  | _ => Raise (ValueError "Unknown SILO variable codes. See Climate Variables page.")
  end.

(** A table: rows of named cells. *)
Inductive cell : Type :=
| Text (s : string)
| Number (x : float)
| Integer (z : Z).

Definition row : Type := gmap string cell.
Definition frame : Type := list row.

(** [df[col] = v]: the column is set in every row. *)
Definition set_column (col : string) (v : cell) (df : frame) : frame :=
  map (fun r : gmap string cell => <[col := v]> r) df.

(** A response as the sampler reads it: the status and the table its
    body parses to, if it parses. *)
Record Response : Type := {
  status_code : Z;
  body : option frame
}.

(** What one [requests.get] does. *)
Inductive http : Type :=
| Answer (r : Response)
| Broken (e : exn).

(** The network: what the successive calls of [requests.get] will do. *)
Definition network : Type := list http.

Definition raise_for_status (r : Response) : result unit :=
  if (400 <=? status_code r) && (status_code r <? 600)
  then Raise (HTTPError (status_code r))
  else Return tt.

(** The loop of [_call_api] from attempt [k] on, [fuel] attempts left;
    [r] is the response of the attempt before.  The waits between the
    attempts do not change the result. *)
Fixpoint _call_api_from (fuel : nat) (k retry_max : Z) (r : option Response)
    (net : network) : result Response * network :=
  match fuel with
  | O =>
      (match r with
       | Some r => Return r
       | None => Raise (UnboundLocalError "r")
       end, net)
  | S fuel' =>
      match net with
      | [] => (Raise (ConnectionError "no answer"), [])
      | Broken e :: net' => (Raise e, net')
      | Answer r :: net' =>
          if status_code r =? 200 then (Return r, net')
          else
            match (if k =? retry_max then raise_for_status r else Return tt) with
            | Raise e => (Raise e, net')
            | Return _ => _call_api_from fuel' (k + 1) retry_max (Some r) net'
            end
      end
  end.

Definition _call_api (retry_max : Z) (net : network)
    : result Response * network :=
  _call_api_from (Z.to_nat (retry_max + 1)) 0 retry_max None net.

Definition params : Type := list (string * string).

Definition _datadrill_row (lon lat : float) (start finish comment username
    password fmt : string) : result (string * params) :=
  let url := SILO_BASE ++ "/DataDrillDataset.php" in
  bind (_snap05 lon) (fun slon =>
  bind (_snap05 lat) (fun slat =>
  Return
    (url, [("lon", format_float 2 slon); ("lat", format_float 2 slat);
           ("start", start); ("finish", finish); ("format", fmt);
           ("comment", comment); ("username", username);
           ("password", password)]))).

Definition _patchedpoint_row (station : Z) (start finish comment username
    fmt : string) : string * params :=
  let url := SILO_BASE ++ "/PatchedPointDataset.php" in
  (url, [("station", string_of_Z station); ("start", start); ("finish", finish);
         ("format", fmt); ("comment", comment); ("username", username)]).

(** [float(s)] for the text the fixed-point format writes: an optional
    minus sign, digits, and at most one point; the result is the double
    nearest to the decimal, a tie to the even one. *)
Definition digit_of (c : ascii) : option Z :=
  let n := nat_of_ascii c in
  if ((48 <=? n) && (n <=? 57))%nat then Some (Z.of_nat (n - 48)) else None.

Fixpoint read_digits (s : string) (acc scale : Z) (after_point : bool)
    : option (Z * Z) :=
  match s with
  | EmptyString => Some (acc, scale)
  | String c s' =>
      if Ascii.eqb c "."%char then
        if after_point then None else read_digits s' acc scale true
      else
        match digit_of c with
        | Some v =>
            read_digits s' (acc * 10 + v)
              (if after_point then scale * 10 else scale) after_point
        | None => None
        end
  end.

Definition float_of_decimal (negative : bool) (n scale : Z) : float :=
  match n, scale with
  | Z.pos n, Z.pos scale =>
      SF2Prim (SFdiv prec emax (S754_finite negative n 0)
                 (S754_finite false scale 0))
  | _, _ => SF2Prim (S754_zero negative)
  end.

Definition float_of_string (s : string) : result float :=
  let '(negative, body) :=
    match s with
    | String c s' => if Ascii.eqb c "-"%char then (true, s') else (false, s)
    | EmptyString => (false, s)
    end in
  match body, read_digits body 0 1 false with
  | String _ _, Some (n, scale) => Return (float_of_decimal negative n scale)
  | _, _ => Raise (ValueError ("could not convert string to float: " ++ s))
  end.

(** [params[k]]. *)
Definition param (ps : params) (k : string) : result string :=
  match indices.assoc k ps with
  | Some v => Return v
  | None => Raise (KeyError k)
  end.

Inductive log_line : Type :=
| LogOk (tag : string) (rows : nat)
| LogFail (tag : string) (e : exn).

(** The loop state of [silo_points_quick]: the tables so far, the log,
    the requests handed to [_call_api], what is left of the network. *)
Record progress : Type := {
  out_tables : list frame;
  log : list log_line;
  asked : list (string * params);
  net : network
}.

(** The request of a row of [base_df]; reading a column the frame does
    not have raises, and so does snapping a coordinate that is NaN or
    infinite. *)
Definition point_request (cfg : SILOPointsConfig) (comment : string)
    (p : point) : result (string * params) :=
  let start := remove_char "-" (date_start cfg) in
  let finish := remove_char "-" (date_end cfg) in
  if String.eqb (mode cfg) "datadrill" then
    match p with
    | LonLat lon lat =>
        _datadrill_row lon lat start finish comment (username cfg)
          (password cfg) (fmt cfg)
    | Station _ => Raise (KeyError "lon")
    end
  else
    match p with
    | Station s =>
        Return (_patchedpoint_row s start finish comment (username cfg) (fmt cfg))
    | LonLat _ _ => Raise (KeyError "station")
    end.

(** The [source_tag] of the row. *)
Definition point_tag (cfg : SILOPointsConfig) (p : point) : result string :=
  if String.eqb (mode cfg) "datadrill" then
    match p with
    | LonLat lon lat =>
        Return ("DD_" ++ format_float 5 lat ++ "_" ++ format_float 5 lon)
    | Station _ => Raise (KeyError "lat")
    end
  else
    match p with
    | Station s => Return ("ST_" ++ string_of_Z s)
    | LonLat _ _ => Raise (KeyError "station")
    end.

(** The columns added to the table of a point. *)
Definition label (cfg : SILOPointsConfig) (p : point) (ps : params)
    (tag : string) (df : frame) : result frame :=
  bind
    (if String.eqb (mode cfg) "datadrill" then
       bind (param ps "lat") (fun lat =>
       bind (float_of_string lat) (fun lat =>
       bind (param ps "lon") (fun lon =>
       bind (float_of_string lon) (fun lon =>
       Return (set_column "lon_snapped" (Number lon)
                 (set_column "lat_snapped" (Number lat) df))))))
     else
       match p with
       | Station s => Return (set_column "station" (Integer s) df)
       | LonLat _ _ => Raise (KeyError "station")
       end)
    (fun df => Return (set_column "source_tag" (Text tag) df)).

(** The body of the [try]: the call, the parse, the added columns. *)
Definition fetch (cfg : SILOPointsConfig) (p : point) (ps : params)
    (tag : string) (net0 : network) : result frame * network :=
  let '(r, net1) := _call_api (retry_max cfg) net0 in
  (bind r (fun r =>
   match body r with
   | None => Raise (ValueError "the body does not parse")
   | Some df => label cfg p ps tag df
   end), net1).

(** One turn of the loop over the points; an exception outside the
    [try] ends the run. *)
Definition step (cfg : SILOPointsConfig) (comment : string) (st : progress)
    (p : point) : result progress :=
  bind (point_request cfg comment p) (fun req =>
  bind (point_tag cfg p) (fun tag =>
  match fetch cfg p (snd req) tag (net st) with
  | (Return df, net1) =>
      Return {| out_tables := out_tables st ++ [df];
                log := log st ++ [LogOk tag (List.length df)];
                asked := asked st ++ [req];
                net := net1 |}
  | (Raise e, net1) =>
      Return {| out_tables := out_tables st;
                log := log st ++ [LogFail tag e];
                asked := asked st ++ [req];
                net := net1 |}
  end)).

Fixpoint loop (cfg : SILOPointsConfig) (comment : string) (st : progress)
    (pts : list point) : result progress :=
  match pts with
  | [] => Return st
  | p :: pts' => bind (step cfg comment st p) (fun st' => loop cfg comment st' pts')
  end.

(** The table that is written, its row count, the log, and the requests
    made. *)
Record outcome : Type := {
  big : frame;
  n_rows : nat;
  messages : list log_line;
  requests : list (string * params)
}.

Definition silo_points_quick (read_file : string -> result PointsFile)
    (net0 : network) (cfg : SILOPointsConfig) : result outcome :=
  if String.eqb (username cfg) "" then
    Raise (ValueError "username (your email) is required by the SILO API.")
  else
    bind (_validate_vars (variables cfg)) (fun comment =>
    bind (_load_points read_file cfg) (fun base_df =>
    bind (loop cfg comment
            {| out_tables := []; log := []; asked := []; net := net0 |} base_df)
      (fun st =>
    match out_tables st with
    | [] => Raise (RuntimeError "No tables were downloaded; check API credentials/params.")
    | _ =>
        let big := concat (out_tables st) in
        Return {| big := big; n_rows := List.length big; messages := log st;
                  requests := asked st |}
    end))).








End silo.

(** ** sof.py *)

Module sof.
Import py.

Definition SOF_BASE : string :=
  "https://data.tern.org.au/model-derived/slga/NationalMaps/SoilAndLandscapeGrid/SOF/v1".

Definition FAMILIES : list (string * string) :=
  [ ("Fractions_Density", "SOF_Fractions_Density");
    ("Proportions", "SOF_Proportions");
    ("Stocks", "SOF_Stocks") ].

Definition FRACTIONS : list string := ["MAOC"; "POC"; "PyOC"].
Definition DEPTHS : list string := ["000_005"; "005_015"; "015_030"].
Definition STATS : list string := ["EV"; "05"; "95"].

(** [x in (a, b, ...)]. *)
Definition isin (x : string) (l : list string) : bool := ee.has_name l x.

Definition _sof_is_available (family depth stat fraction : string) : bool :=
  if String.eqb family "Fractions_Density" then
    isin depth ["000_005"; "005_015"; "015_030"] && isin stat ["EV"; "05"; "95"]
  else if String.eqb family "Proportions" then
    if String.eqb depth "000_005" then isin stat ["EV"; "05"; "95"]
    else if isin depth ["005_015"; "015_030"] then isin stat ["05"; "95"]
    else false
  else if String.eqb family "Stocks" then
    String.eqb depth "000_030" && String.eqb stat "EV"
  else false.

Definition _sof_url (family depth stat fraction : string) : result string :=
  match indices.assoc family FAMILIES with
  | None => Raise (KeyError family)
  | Some fam_dir =>
      let fname :=
        if String.eqb family "Stocks" then
          if negb (String.eqb depth "000_030") || negb (String.eqb stat "EV")
          then Raise (ValueError "Stocks: only depth 000_030 and stat EV are available.")
          else Return ("SOF_000_030_EV_N_P_AU_TRN_N_20221006_Fractions_Stock_"
                         ++ fraction ++ ".tif")
        else
          if negb (isin depth DEPTHS)
          then Raise (ValueError ("Depth " ++ depth ++ " invalid for " ++ family))
          else if negb (isin stat STATS)
          then Raise (ValueError "stat must be one of ['EV', '05', '95']")
          else
            let suffix := if String.eqb family "Fractions_Density"
                          then "Fraction_Density" else "Proportion" in
            Return ("SOF_" ++ depth ++ "_" ++ stat ++ "_N_P_AU_TRN_N_20221006_"
                      ++ suffix ++ "_" ++ fraction ++ ".tif") in
      bind fname (fun fname => Return (SOF_BASE ++ "/" ++ fam_dir ++ "/" ++ fname))
  end.

Record SOFPointsConfig : Type := {
  families : list string;
  fractions : list string;
  depths : list string;
  stat : string
}.

(** (family, depth, stat, fraction). *)
Definition request : Type := string * string * string * string.

(** The request list and the [[skip]] warnings, in the order made. *)
Record plan : Type := {
  requests : list request;
  warnings : list request
}.

Definition consider (pl : plan) (fam d st frac : string) : plan :=
  if _sof_is_available fam d st frac
  then {| requests := requests pl ++ [(fam, d, st, frac)]; warnings := warnings pl |}
  else {| requests := requests pl; warnings := warnings pl ++ [(fam, d, st, frac)] |}.

Definition plan_family (cfg : SOFPointsConfig) (pl : plan) (fam : string) : plan :=
  if String.eqb fam "Stocks" then
    fold_left (fun pl frac => consider pl fam "000_030" "EV" frac)
      (fractions cfg) pl
  else
    fold_left (fun pl d =>
        fold_left (fun pl frac => consider pl fam d (stat cfg) frac)
          (fractions cfg) pl)
      (depths cfg) pl.

(** The combinations the planning loops put to the table for a family:
    for Stocks the one published depth and statistic, whatever the
    configuration says. *)
Definition candidates (cfg : SOFPointsConfig) (fam : string) : list request :=
  if String.eqb fam "Stocks" then
    map (fun frac => (fam, "000_030", "EV", frac)) (fractions cfg)
  else
    flat_map (fun d => map (fun frac => (fam, d, stat cfg, frac)) (fractions cfg))
      (depths cfg).

Definition available (r : request) : bool :=
  let '(fam, d, st, frac) := r in _sof_is_available fam d st frac.

Definition url_of (r : request) : result string :=
  let '(fam, d, st, frac) := r in _sof_url fam d st frac.

(** The first value of the list a check refuses, as the checking loop
    meets it. *)
Definition first_bad (ok : string -> bool) (l : list string) : option string :=
  List.find (fun x => negb (ok x)) l.

(** [sof_points_quick] up to the request list: the three validation
    loops, then the planning loops. *)
Definition sof_points_quick_plan (cfg : SOFPointsConfig) : result plan :=
  match first_bad (fun fam => isin fam (map fst FAMILIES)) (families cfg) with
  | Some fam => Raise (ValueError ("Unknown family '" ++ fam ++ "'."))
  | None =>
  match first_bad (fun frac => isin frac FRACTIONS) (fractions cfg) with
  | Some frac => Raise (ValueError ("Unknown fraction '" ++ frac ++ "'."))
  | None =>
  match first_bad (fun d => isin d DEPTHS || isin "Stocks" (families cfg))
          (depths cfg) with
  | Some d => Raise (ValueError ("Invalid depth '" ++ d ++ "'."))
  | None =>
      Return (fold_left (plan_family cfg) (families cfg)
                {| requests := []; warnings := [] |})
  end end end.

(** The URLs the sampling loop opens, one per planned request. *)
Definition sof_points_quick_urls (cfg : SOFPointsConfig)
    : result (list (result string)) :=
  bind (sof_points_quick_plan cfg) (fun pl =>
  Return (map (fun r : request =>
                 let '(fam, d, st, frac) := r in _sof_url fam d st frac)
              (requests pl))).

End sof.

(** ** report.py *)

Module report.

Record RunReport : Type := {
  steps : list (string * list (string * string));
  errors : list (string * py.exn);
  artifacts : list (string * string)
}.

Definition empty : RunReport := {| steps := []; errors := []; artifacts := [] |}.

Definition add_step (r : RunReport) (name : string)
    (meta : list (string * string)) : RunReport :=
  {| steps := steps r ++ [(name, meta)]; errors := errors r;
     artifacts := artifacts r |}.

Definition add_error (r : RunReport) (where_ : string) (err : py.exn)
    : RunReport :=
  {| steps := steps r; errors := errors r ++ [(where_, err)];
     artifacts := artifacts r |}.

Definition add_artifact (r : RunReport) (path kind : string) : RunReport :=
  {| steps := steps r; errors := errors r;
     artifacts := artifacts r ++ [(path, kind)] |}.

End report.

(** ** export.py and runner.py *)

Module runner.
Import py report.

Record Config : Type := {
  area_name : string;
  yield_year : Z;
  roi_path : option string;
  roi_ee_asset : option string;
  date_start : string;
  date_end : string;
  export_root : string;
  preview : bool
}.

(** What the calls of one run into Earth Engine, the file system and the
    map widget do: each either returns or raises. *)
Record world : Type := {
  makedirs : result unit;
  setup_logger : result unit;
  ee_Initialize : result unit;
  load_roi : result unit;
  compose_time_series : result unit;
  safe_monthly_mosaics : result unit;
  assemble_cube : result nat;
  table_ensure_dir : result unit;
  table_reduce_and_write : result unit;
  samples_ensure_dir : result unit;
  samples_draw_and_write : result unit;
  show_on_map : result unit
}.

Definition export_dir (cfg : Config) : string :=
  export_root cfg ++ "/" ++ area_name cfg ++ "/" ++ string_of_Z (yield_year cfg).

Definition validate (w : world) (cfg : Config) : result unit :=
  if String.eqb (area_name cfg) "" then
    Raise (AssertionError "area_name must be provided")
  else if negb (String.leb (date_start cfg) (date_end cfg)) then
    Raise (AssertionError "date_start must be <= date_end")
  else
    match roi_path cfg, roi_ee_asset cfg with
    | None, None => Raise (ValueError "Provide either roi_path or roi_ee_asset")
    | _, _ => makedirs w
    end.

(** [re.sub(r"[^A-Za-z0-9_\-]", "_", stem)]. *)
Definition keep_char (c : ascii) : bool :=
  let n := nat_of_ascii c in
  ((65 <=? n) && (n <=? 90) || (97 <=? n) && (n <=? 122)
   || (48 <=? n) && (n <=? 57) || (n =? 95) || (n =? 45))%nat.

Definition make_name (area : string) (year : Z) (stem : string) : string :=
  let stem := string_of_list_ascii
                (map (fun c => if keep_char c then c else "_"%char)
                     (list_ascii_of_string stem)) in
  area ++ "_" ++ string_of_Z year ++ "_" ++ stem.

(** [export_cube_table]: directory creation is outside its [try]; a
    failure of the reduction or of the write is caught, logged, and turned
    into [None]. *)
Definition export_cube_table (w : world) (cfg : Config) : result (option string) :=
  let name := make_name (area_name cfg) (yield_year cfg) "cube_stats" in
  let out_dir := export_dir cfg in
  bind (table_ensure_dir w) (fun _ =>
  let parquet_path := out_dir ++ "/" ++ name ++ ".parquet" in
  match table_reduce_and_write w with
  | Return _ => Return (Some parquet_path)
  | Raise _ => Return None
  end).

Definition export_pixel_samples (w : world) (cfg : Config) : result (option string) :=
  let name := make_name (area_name cfg) (yield_year cfg) "samples" in
  let out_dir := export_dir cfg in
  bind (samples_ensure_dir w) (fun _ =>
  let parquet_path := out_dir ++ "/" ++ name ++ ".parquet" in
  match samples_draw_and_write w with
  | Return _ => Return (Some parquet_path)
  | Raise _ => Return None
  end).

Definition source_of (cfg : Config) : string :=
  match roi_path cfg with
  | Some p => if String.eqb p "" then default "None" (roi_ee_asset cfg) else p
  | None => default "None" (roi_ee_asset cfg)
  end.

(** The two exports and the preview. *)
Definition late_stages (w : world) (cfg : Config) (report : RunReport)
    : RunReport :=
  let report :=
    match export_cube_table w cfg with
    | Return (Some p) => if String.eqb p "" then report else add_artifact report p "table"
    | Return None => report
    | Raise e => add_error report "export_cube_table" e
    end in
  let report :=
    match export_pixel_samples w cfg with
    | Return (Some p2) => if String.eqb p2 "" then report else add_artifact report p2 "samples"
    | Return None => report
    | Raise e => add_error report "export_pixel_samples" e
    end in
  if preview cfg then
    match show_on_map w with
    | Return _ => add_step report "Preview map ready" []
    | Raise e => add_error report "preview" e
    end
  else report.

Definition run_pipeline_quick (w : world) (cfg : Config) : result RunReport :=
  bind (validate w cfg) (fun _ =>
  bind (setup_logger w) (fun _ =>
  let report := report.empty in
  match ee_Initialize w with
  | Raise e => Return (add_error report "ee.Initialize" e)
  | Return _ =>
  match load_roi w with
  | Raise e => Return (add_error report "load_roi" e)
  | Return _ =>
  let report := add_step report "ROI loaded" [("source", source_of cfg)] in
  match compose_time_series w with
  | Raise e => Return (add_error report "compose_time_series" e)
  | Return _ =>
  let report := add_step report "Time series composed" [] in
  match safe_monthly_mosaics w with
  | Raise e => Return (add_error report "safe_monthly_mosaics" e)
  | Return _ =>
  let report := add_step report "Monthly mosaics created" [] in
  match assemble_cube w with
  | Raise e => Return (add_error report "assemble_cube" e)
  | Return n =>
  let report := add_step report "Cube assembled"
                  [("bands", ee.string_of_nat n)] in
  Return (late_stages w cfg report)
  end end end end end)).

(** The early stages in order, under the names their errors are
    recorded with. *)
Definition early_stages (w : world) : list (string * result unit) :=
  [ ("ee.Initialize", ee_Initialize w);
    ("load_roi", load_roi w);
    ("compose_time_series", compose_time_series w);
    ("safe_monthly_mosaics", safe_monthly_mosaics w);
    ("assemble_cube", bind (assemble_cube w) (fun _ => Return tt)) ].

(** The first stage of the list that raises: how many stages passed
    before it, its name, its exception. *)
Fixpoint first_failure (passed : nat) (stages : list (string * result unit))
    : option (nat * string * exn) :=
  match stages with
  | [] => None
  | (name, Return _) :: stages' => first_failure (S passed) stages'
  | (name, Raise e) :: stages' => Some (passed, name, e)
  end.

(** The steps recorded by the early stages; [ee.Initialize] records
    none. *)
Definition early_steps : list string :=
  ["ROI loaded"; "Time series composed"; "Monthly mosaics created";
   "Cube assembled"].

(** What the late stages add to the report. *)
Definition late_errors (w : world) (cfg : Config) : list (string * exn) :=
  (match export_cube_table w cfg with
   | Raise e => [("export_cube_table", e)]
   | Return _ => []
   end)
  ++ (match export_pixel_samples w cfg with
      | Raise e => [("export_pixel_samples", e)]
      | Return _ => []
      end)
  ++ (if preview cfg then
        match show_on_map w with
        | Raise e => [("preview", e)]
        | Return _ => []
        end
      else []).

Definition late_artifacts (w : world) (cfg : Config) : list (string * string) :=
  (match export_cube_table w cfg with
   | Return (Some p) => [(p, "table")]
   | _ => []
   end)
  ++ (match export_pixel_samples w cfg with
      | Return (Some p) => [(p, "samples")]
      | _ => []
      end).

Definition late_steps (w : world) (cfg : Config) : list string :=
  if preview cfg then
    match show_on_map w with
    | Return _ => ["Preview map ready"]
    | Raise _ => []
    end
  else [].

End runner.

(** ** Test data *)

Module data.
Import ee date.

(** A monthly composite with the single band NDVI. *)
Definition ndvi_month (label : string) : Image :=
  mkImage [mkBand "NDVI" (Mosaic [Stored "NDVI"])] {[ "date" := PStr label ]}.

Definition three_months : ImageCollection :=
  [ndvi_month "2018-01"; ndvi_month "2018-02"; ndvi_month "2018-03"].



(** A scene with the four bands NDRE and EVI are computed from. *)
Definition red_edge_scene : Image :=
  mkImage (map (fun b => mkBand b (Stored b)) ["NIR"; "RED"; "BLUE"; "RE4"])
          {[ "system:time_start" := PNum (of_civil 2018 1 5) ]}.

(** Stocks asked for at the depth 0-5 cm. *)
Definition stocks_at_000_005 : sof.SOFPointsConfig :=
  {| sof.families := ["Stocks"]; sof.fractions := ["MAOC"];
     sof.depths := ["000_005"]; sof.stat := "EV" |}.

(** Proportions at two depths, expected value. *)
Definition proportions_ev : sof.SOFPointsConfig :=
  {| sof.families := ["Proportions"]; sof.fractions := ["MAOC"; "POC"];
     sof.depths := ["000_005"; "015_030"]; sof.stat := "EV" |}.

(** A data-drill run over three points. *)
Definition drill : silo.SILOPointsConfig :=
  {| silo.area_name := "farm"; silo.mode := "datadrill";
     silo.points_path := Some "points.gpkg"; silo.station_field := None;
     silo.variables := ["R"; "x"]; silo.date_start := "2019-01-01";
     silo.date_end := "2019-12-31"; silo.username := "me@example.org";
     silo.password := "apirequest"; silo.fmt := "csv"; silo.retry_max := 1 |}.

Definition three_points (path : string) : py.result silo.PointsFile :=
  py.Return {| silo.crs := Some "EPSG:4326";
               silo.lonlat := [(149.123, -35.456); (150, -36); (151.02, -34.98)]%float;
               silo.int_column := fun _ => None |}.

Definition day (d rain : string) : gmap string silo.cell :=
  {[ "date" := silo.Text d; "daily_rain" := silo.Text rain ]}.

Definition ok_answer (df : silo.frame) : silo.http :=
  silo.Answer {| silo.status_code := 200; silo.body := Some df |}.

Definition bad_answer (status : Z) : silo.http :=
  silo.Answer {| silo.status_code := status; silo.body := None |}.

(** The first point is answered at the second attempt, the second point
    gets 503 twice, the connection breaks on the third. *)
Definition patchy : silo.network :=
  [ bad_answer 503; ok_answer [day "20190101" "0.0"; day "20190102" "1.2"];
    bad_answer 503; bad_answer 503;
    silo.Broken (py.ConnectionError "reset") ].



(** Every call is answered at once. *)
Definition up : silo.network :=
  repeat (ok_answer [day "20190101" "0.0"]) 3.

(** A run configuration with a region file and the preview on. *)
Definition farm_2018 : runner.Config :=
  {| runner.area_name := "farm"; runner.yield_year := 2018;
     runner.roi_path := Some "farm.gpkg"; runner.roi_ee_asset := None;
     runner.date_start := "2018-01-01"; runner.date_end := "2018-12-31";
     runner.export_root := "Outputs"; runner.preview := true |}.

(** Every call succeeds; the cube has 12 bands. *)
Definition fine : runner.world :=
  {| runner.makedirs := py.Return tt; runner.setup_logger := py.Return tt;
     runner.ee_Initialize := py.Return tt; runner.load_roi := py.Return tt;
     runner.compose_time_series := py.Return tt;
     runner.safe_monthly_mosaics := py.Return tt;
     runner.assemble_cube := py.Return 12%nat;
     runner.table_ensure_dir := py.Return tt;
     runner.table_reduce_and_write := py.Return tt;
     runner.samples_ensure_dir := py.Return tt;
     runner.samples_draw_and_write := py.Return tt;
     runner.show_on_map := py.Return tt |}.

(** The region file cannot be read. *)
Definition roi_unreadable : runner.world :=
  {| runner.makedirs := py.Return tt; runner.setup_logger := py.Return tt;
     runner.ee_Initialize := py.Return tt;
     runner.load_roi := py.Raise (py.OSError "farm.gpkg: No such file or directory");
     runner.compose_time_series := py.Return tt;
     runner.safe_monthly_mosaics := py.Return tt;
     runner.assemble_cube := py.Return 12%nat;
     runner.table_ensure_dir := py.Return tt;
     runner.table_reduce_and_write := py.Return tt;
     runner.samples_ensure_dir := py.Return tt;
     runner.samples_draw_and_write := py.Return tt;
     runner.show_on_map := py.Return tt |}.

(** The region reduction of the table export and the map widget fail. *)
Definition reduction_and_preview_fail : runner.world :=
  {| runner.makedirs := py.Return tt; runner.setup_logger := py.Return tt;
     runner.ee_Initialize := py.Return tt; runner.load_roi := py.Return tt;
     runner.compose_time_series := py.Return tt;
     runner.safe_monthly_mosaics := py.Return tt;
     runner.assemble_cube := py.Return 12%nat;
     runner.table_ensure_dir := py.Return tt;
     runner.table_reduce_and_write := py.Raise (py.EEException "Too many pixels in the region.");
     runner.samples_ensure_dir := py.Return tt;
     runner.samples_draw_and_write := py.Return tt;
     runner.show_on_map := py.Raise (py.RuntimeError "no display") |}.

(** A scene of the time series acquired at [t]. *)
Definition scene (t : Z) : Image :=
  mkImage [mkBand "NDVI" (Stored "NDVI")] {[ "system:time_start" := PNum t ]}.

(** Two scenes in acquisition order: 31 January and 1 March 2018. *)
Definition late_january_early_march : ImageCollection :=
  [scene (of_civil 2018 1 31); scene (of_civil 2018 3 1)].

(** Two scenes stored latest first: 15 March, then 10 January 2018. *)
Definition march_before_january : ImageCollection :=
  [scene (of_civil 2018 3 15); scene (of_civil 2018 1 10)].

(** A year of scenes, one on the 5th of every other month. *)
Definition every_other_month : ImageCollection :=
  map (fun m => scene (of_civil 2018 m 5)) [1; 3; 5; 7; 9; 11].

End data.

(** ** The monthly series as the specification words it *)

Module spec.
Import ee date.

(** The bounds of section 4.4: the whole series sorted ascending and
    descending, the first element of each. *)
Definition first_observed (ts : ImageCollection) : option Z :=
  match sort "system:time_start" true ts with
  | i :: _ => time_start i
  | [] => None
  end.

Definition last_observed (ts : ImageCollection) : option Z :=
  match sort "system:time_start" false ts with
  | i :: _ => time_start i
  | [] => None
  end.

(** Calendar months from the month of [t0] to the month of [t1]. *)
Definition months_between (t0 t1 : Z) : Z :=
  let '(y0, m0) := year_month t0 in
  let '(y1, m1) := year_month t1 in
  (y1 - y0) * 12 + (m1 - m0).

(** The first instant of the calendar month of [t]. *)
Definition month_floor (t : Z) : Z :=
  let '(y, m) := year_month t in of_civil y m 1.

(** One label per calendar month from the floor of the first observed
    date to the floor of the last one, inclusive. *)
Definition monthly_labels (ts : ImageCollection) : option (list string) :=
  match first_observed ts, last_observed ts with
  | Some t0, Some t1 =>
      Some (map (fun i => format_YYYY_MM (advance_month (month_floor t0) i))
                (List_sequence 0 (months_between t0 t1)))
  | _, _ => None
  end.

End spec.

(** ** timeseries.py: the composer *)

Module composer.
Import ee date indices.

(** [Date.format('YYYY-MM-dd')], for the years 0 to 9999. *)
Definition format_YYYY_MM_dd (t : Z) : string :=
  let '(y, m, d) := civil_from_days (t / MS_PER_DAY) in
  pad 4 (string_of_nat (Z.to_nat y)) ++ "-" ++ pad 2 (string_of_nat (Z.to_nat m))
    ++ "-" ++ pad 2 (string_of_nat (Z.to_nat d)).

Definition _per_image (indices_ : option (list (option string))) (img : Image)
    : computed Image :=
  required "Image.set" "image" (apply_indices img indices_) (fun img2 =>
  required "Date.format" "date" (image_date img) (fun t =>
  Value (set img2 "date" (PStr (format_YYYY_MM_dd t))))).

Definition compose_time_series (col : ImageCollection)
    (indices_ : option (list (option string))) : computed ImageCollection :=
  map_computed (_per_image indices_) col.

(** An image of the harmonised collection: the canonical bands and an
    acquisition time. *)
Definition harmonised (img : Image) : Prop :=
  has_bands img CANONICAL = true /\ exists t, time_start img = Some t.

(** A composite that carries a month label. *)
Definition labelled (img : Image) : Prop :=
  exists d, props img !! "date" = Some (PStr d).

(** The pixels of all bands of an image, in band order. *)
Definition band_pixels (img : Image) : list pixels := map band_data (bands img).

End composer.

(** ** More test data *)

Module cases.
Import ee date.

(** Two composites of two bands each. *)
Definition two_band_month (label : string) : Image :=
  mkImage [mkBand "NDVI" (Mosaic [Stored "NDVI"]); mkBand "EVI" (Mosaic [Stored "EVI"])]
          {[ "date" := PStr label ]}.

Definition two_months : ImageCollection :=
  [two_band_month "2019-05"; two_band_month "2019-06"].

(** Three harmonised scenes, stored in acquisition order. *)
Definition s2_at (t : Z) : Image :=
  mkImage (map (fun b => mkBand b (Stored b)) CANONICAL)
          {[ "system:time_start" := PNum t ]}.

Definition s2_series : ImageCollection :=
  [s2_at (of_civil 2018 1 5); s2_at (of_civil 2018 2 20); s2_at (of_civil 2018 4 2)].

(** A composite with a band and no month label. *)
Definition unlabelled : Image := mkImage [mkBand "NDVI" (Stored "NDVI")] ∅.

(** A scene without acquisition time. *)
Definition undated : Image := mkImage [mkBand "NIR" (Stored "B8")] ∅.

End cases.

Module cases_indices.
Import ee.

(** A vegetated pixel: NIR 0.4, RED 0.1, nothing elsewhere. *)
Definition leaf_pixel (b : string) : Q :=
  if String.eqb b "NIR" then 0.4%Q
  else if String.eqb b "RED" then 0.1%Q
  else 0%Q.

(** An image with the visible bands only. *)
Definition visible_only : Image :=
  mkImage (map (fun b => mkBand b (Stored b)) ["BLUE"; "GREEN"; "RED"]) ∅.

(** An evaluation that ends in an error. *)
Definition failed {A : Type} (c : computed A) : Prop :=
  exists msg, c = Failure msg.

End cases_indices.

Module cases_silo.
Import py silo.

(** An answer that is not the status 200. *)
Definition refused (h : http) : Prop :=
  match h with
  | Answer r => status_code r <> 200
  | Broken _ => False
  end.

(** An answer with a status only. *)
Definition status (code : Z) : Response :=
  {| status_code := code; body := None |}.

End cases_silo.

Module cases_silo2.
Import py silo.

(** The normalised code of a requested variable is a SILO code. *)
Definition valid_code (v : string) : Prop :=
  In (indices.upper (indices.strip v)) VALID_CODES.

End cases_silo2.

(** ** sof.py: the sampling loop's names *)

Module sof_columns.
Import py sof.

(** The column of [out_df] a request is sampled into. *)
Definition column_of (r : request) : string :=
  let '(fam, d, st, frac) := r in
  let kind := if String.eqb fam "Stocks" then "STOCK"
              else if String.eqb fam "Fractions_Density" then "DENS"
              else "PROP" in
  let depth_tag := if String.eqb fam "Stocks" then "000_030" else d in
  frac ++ "_" ++ depth_tag ++ "_" ++ st ++ "_" ++ kind.

(** Every combination of a known family, a depth of the table, a known
    statistic and a known fraction. *)
Definition universe : list request :=
  flat_map (fun fam =>
    flat_map (fun d =>
      flat_map (fun st =>
        map (fun frac => (fam, d, st, frac)) FRACTIONS)
        STATS)
      ["000_005"; "005_015"; "015_030"; "000_030"])
    (map fst FAMILIES).

Definition request_eqb (r1 r2 : request) : bool :=
  let '(f1, d1, s1, c1) := r1 in
  let '(f2, d2, s2, c2) := r2 in
  String.eqb f1 f2 && String.eqb d1 d2 && String.eqb s1 s2 && String.eqb c1 c2.

Definition result_eqb (u1 u2 : result string) : bool :=
  match u1, u2 with
  | Return a, Return b => String.eqb a b
  | _, _ => false
  end.

(** Two requests that share a column or a file are the same request. *)
Definition separate (r1 r2 : request) : bool :=
  implb (String.eqb (column_of r1) (column_of r2)
         || result_eqb (url_of r1) (url_of r2))
        (request_eqb r1 r2).

(** The configuration passes the three validation loops. *)
Definition valid (cfg : SOFPointsConfig) : Prop :=
  List.Forall (fun fam => In fam (map fst FAMILIES)) (families cfg)
  /\ List.Forall (fun frac => In frac FRACTIONS) (fractions cfg)
  /\ (In "Stocks" (families cfg)
      \/ List.Forall (fun d => In d DEPTHS) (depths cfg)).

(** Stocks and Proportions at a depth no family has, percentile 5. *)
Definition odd_depth : SOFPointsConfig :=
  {| families := ["Stocks"; "Proportions"]; fractions := ["POC"];
     depths := ["030_060"]; stat := "05" |}.

(** Densities at a statistic nobody publishes. *)
Definition odd_stat : SOFPointsConfig :=
  {| families := ["Fractions_Density"; "Stocks"]; fractions := ["POC"; "MAOC"];
     depths := ["000_005"]; stat := "50" |}.

End sof_columns.

(** ** collections.py *)

Module collections.
Import ee.

(** The mask expression of [mask_s2_clouds] at a pixel whose QA60 value
    is [qa]: bit 10 is cloud, bit 11 is cirrus. *)
Definition clear_sky (qa : Z) : bool :=
  let cloud_bit := 10 in
  let cirrus_bit := 11 in
  (Z.land qa (Z.shiftl 1 cloud_bit) =? 0)
  && (Z.land qa (Z.shiftl 1 cirrus_bit) =? 0).

Definition bands_src : list string :=
  ["B2"; "B3"; "B4"; "B8"; "B5"; "B6"; "B7"; "B8A"; "B11"; "B12"].

Definition bands_dst : list string :=
  ["BLUE"; "GREEN"; "RED"; "NIR"; "RE1"; "RE2"; "RE3"; "RE4"; "SWIR1"; "SWIR2"].

(** [Image.select(selectors, names)]: the selected bands in selector
    order under their new names; the metadata stay. *)
Definition select_as (img : Image) (selectors names : list string)
    : computed Image :=
  required "Image.select" "input"
    (map_computed
       (fun b => match band_of img b with
                 | Some p => Value p
                 | None => Failure ("Image.select: Pattern '" ++ b
                                      ++ "' did not match any bands.")
                 end)
       selectors)
    (fun found =>
       if Nat.eqb (List.length names) (List.length found)
       then Value (mkImage
                     (map (fun p : string * pixels => mkBand (fst p) (snd p))
                          (combine names found))
                     (props img))
       else Failure "Image.select: The number of names must match the number of selectors.").

(** Resampling changes how pixels are read later, not the bands. *)
Definition select_s2_bands (img : Image) : computed Image :=
  select_as img bands_src bands_dst.

(** A Sentinel-2 scene as stored: its twelve spectral bands and QA60. *)
Definition raw_scene : Image :=
  mkImage
    (map (fun b => mkBand b (Stored b))
       ["B1"; "B2"; "B3"; "B4"; "B5"; "B6"; "B7"; "B8"; "B8A"; "B9"; "B11";
        "B12"; "QA60"])
    {[ "system:time_start" := PNum 1515110400000 ]}.

End collections.

(** ** config.py and panels.py *)

Module panels.
Import py.

Record Config : Type := {
  area_name : string;
  yield_year : Z;
  roi_path : option string;
  roi_ee_asset : option string;
  crs_local : string;
  date_start : string;
  date_end : string;
  collections : list (string * string);
  indices : list string;
  export_root : string;
  pixel_scale : Z;
  max_pixels : Q;
  preview : bool;
  make_parquet : bool;
  make_csv : bool;
  sample_points_fc : option string;
  sample_size : option Z
}.

(** [Config(area_name=..., yield_year=..., ...)] with the fields the
    panel sets; the other fields take the defaults of the dataclass. *)
Definition make_Config (area : string) (year : Z) (path asset : option string)
    (dstart dend : string) (idx : list string) (scale : Z)
    (prev csv parquet : bool) : Config :=
  {| area_name := area; yield_year := year; roi_path := path;
     roi_ee_asset := asset; crs_local := "EPSG:32754";
     date_start := dstart; date_end := dend;
     collections := [("s2", "COPERNICUS/S2_SR_HARMONIZED");
                     ("hls", "NASA/HLS/HLSL30/v002")];
     indices := idx; export_root := "Outputs"; pixel_scale := scale;
     max_pixels := 10000000000000%Q; preview := prev; make_parquet := parquet;
     make_csv := csv; sample_points_fc := None; sample_size := None |}.

(** The values of the widgets. *)
Record Panel : Type := {
  area : string;
  year : Z;
  roi_path_text : string;
  roi_asset_text : string;
  dstart : string;
  dend : string;
  indices_text : string;
  scale : Z;
  preview_box : bool;
  make_csv_box : bool;
  make_parquet_box : bool
}.

(** [x or '']. *)
Definition or_empty (x : option string) : string := default "" x.

(** [x or None]. *)
Definition or_None (x : string) : option string :=
  if String.eqb x "" then None else Some x.

(** [s.split(c)]. *)
Fixpoint split_on (c : ascii) (s : string) : list string :=
  match s with
  | EmptyString => [EmptyString]
  | String x s' =>
      if Ascii.eqb x c then EmptyString :: split_on c s'
      else
        match split_on c s' with
        | h :: t => String x h :: t
        | [] => [String x EmptyString]
        end
  end.

Definition build_user_panel (cfg : Config) : Panel :=
  {| area := area_name cfg; year := yield_year cfg;
     roi_path_text := or_empty (roi_path cfg);
     roi_asset_text := or_empty (roi_ee_asset cfg);
     dstart := date_start cfg; dend := date_end cfg;
     indices_text := String.concat "," (indices cfg);
     scale := pixel_scale cfg; preview_box := preview cfg;
     make_csv_box := make_csv cfg; make_parquet_box := make_parquet cfg |}.

(** [[s.strip() for s in text.split(',') if s.strip()]]. *)
Definition parse_indices (text : string) : list string :=
  map indices.strip
    (List.filter (fun s => negb (String.eqb (indices.strip s) ""))
       (split_on "," text)).

Definition get_config (p : Panel) : Config :=
  make_Config (area p) (year p) (or_None (roi_path_text p))
    (or_None (roi_asset_text p)) (dstart p) (dend p)
    (parse_indices (indices_text p)) (scale p) (preview_box p)
    (make_csv_box p) (make_parquet_box p).

Fixpoint has_char (c : ascii) (s : string) : bool :=
  match s with
  | EmptyString => false
  | String x s' => Ascii.eqb x c || has_char c s'
  end.

(** An index name the text field keeps as it is: not empty, no comma,
    no blank at either end. *)
Definition plain (s : string) : Prop :=
  indices.strip s = s /\ s <> "" /\ has_char "," s = false.

(** A configuration whose fields outside the panel are the defaults. *)
Definition panel_sized (cfg : Config) : Prop :=
  crs_local cfg = "EPSG:32754"
  /\ collections cfg = [("s2", "COPERNICUS/S2_SR_HARMONIZED");
                        ("hls", "NASA/HLS/HLSL30/v002")]
  /\ export_root cfg = "Outputs"
  /\ max_pixels cfg = 10000000000000%Q
  /\ sample_points_fc cfg = None
  /\ sample_size cfg = None.

Definition example : Config :=
  make_Config "farm" 2018 (Some "farm.gpkg") None "2018-01-01" "2018-12-31"
    ["NDVI"; "EVI2"; "NBR"] 10 true false true.

End panels.

(** ** utils.py *)

Module utils.

(** The characters [make_name] leaves in a stem. *)
Definition kept (s : string) : Prop :=
  List.Forall (fun c => runner.keep_char c = true) (list_ascii_of_string s).

End utils.

(** ** export.py: features to rows *)

Module export_tables.

(** A JSON value of a feature. *)
Inductive value : Type :=
| VNull
| VNum (q : Q)
| VStr (s : string).

(** The [geometry] of a feature as [getInfo] returns it; an absent key
    is [None]. *)
Record Geometry : Type := {
  gtype : option string;
  coordinates : option (list value)
}.

Record Feature : Type := {
  properties : option (gmap string value);
  geometry : option Geometry
}.

Definition is_point (f : Feature) : bool :=
  match geometry f with
  | Some geom =>
      match gtype geom with
      | Some t => String.eqb t "Point"
      | None => false
      end
  | None => false
  end.

(** [geom.get("coordinates", [None, None])]. *)
Definition coords_of (f : Feature) : list value :=
  match geometry f with
  | Some geom => default [VNull; VNull] (coordinates geom)
  | None => [VNull; VNull]
  end.

(** [(f.get("properties") or {}).copy()]. *)
Definition props_of (f : Feature) : gmap string value :=
  default ∅ (properties f).

(** The row of one feature; [None] is the [IndexError] of reading
    [coords[0]] or [coords[1]] from too short a list. *)
Definition row_of (f : Feature) : option (gmap string value) :=
  let props := props_of f in
  if is_point f then
    match coords_of f with
    | lon :: lat :: _ => Some (<["lat" := lat]> (<["lon" := lon]> props))
    | _ => None
    end
  else Some props.

(** The rows of [_fc_points_to_df], for the features [getInfo] returned. *)
Fixpoint _fc_points_to_df (feats : list Feature)
    : option (list (gmap string value)) :=
  match feats with
  | [] => Some []
  | f :: feats' =>
      match row_of f with
      | None => None
      | Some r =>
          match _fc_points_to_df feats' with
          | None => None
          | Some rows => Some (r :: rows)
          end
      end
  end.

(** A sampled pixel whose properties already hold a [lon]. *)
Definition sampled : Feature :=
  {| properties := Some {[ "NDVI_2018-01" := VNum 0.61%Q; "lon" := VStr "east" ]};
     geometry := Some {| gtype := Some "Point";
                         coordinates := Some [VNum 149.1%Q; VNum (-35.45)%Q] |} |}.

(** A feature drawn as a polygon, without properties. *)
Definition outline : Feature :=
  {| properties := None;
     geometry := Some {| gtype := Some "Polygon"; coordinates := Some [] |} |}.

End export_tables.

(** ** roi.py *)

Module roi.
Import py.

(** Where the region of interest comes from. *)
Inductive region : Type :=
| FromAsset (asset : string)
| FromFile (path : string) (dissolved : string).

(** The truth value of an optional text: absent and empty are false. *)
Definition given (x : option string) : bool :=
  match x with
  | Some s => negb (String.eqb s "")
  | None => false
  end.

(** [read_file] reads, reprojects and dissolves the vector file, or
    raises. *)
Definition load_roi (read_file : string -> result string)
    (roi_path roi_ee_asset : option string) : result region :=
  if given roi_ee_asset then Return (FromAsset (default "" roi_ee_asset))
  else if negb (given roi_path) then
    Raise (ValueError "Provide roi_path or roi_ee_asset")
  else
    bind (read_file (default "" roi_path)) (fun geom =>
    Return (FromFile (default "" roi_path) geom)).

(** A configuration whose ROI path is the empty text. *)
Definition empty_path : runner.Config :=
  {| runner.area_name := "farm"; runner.yield_year := 2018;
     runner.roi_path := Some ""; runner.roi_ee_asset := None;
     runner.date_start := "2018-01-01"; runner.date_end := "2018-12-31";
     runner.export_root := "Outputs"; runner.preview := false |}.

End roi.

(** ** slga.py *)

Module slga.
Import py.

Definition SLGA_ATTRIBUTES : list (string * string) :=
  [("SOC", "Soil Organic Carbon"); ("CLY", "Clay"); ("SLT", "Silt");
   ("SND", "Sand"); ("pHc", "pH (CaCl2)"); ("AWC", "Available Water Capacity");
   ("ECE", "Effective Cation Exchange Capacity"); ("NTO", "Total Nitrogen");
   ("PTO", "Total Phosphorus"); ("DES", "Soil Depth"); ("DER", "Regolith Depth")].

Definition SLGA_DEPTHS : list string :=
  ["000_005"; "005_015"; "015_030"; "030_060"; "060_100"; "100_200"].

Definition SLGA_STATS : list string := ["EV"; "05"; "95"].

(** The keys of [SLGA_ATTRIBUTES], which [a not in SLGA_ATTRIBUTES]
    searches. *)
Definition keys : list string := map fst SLGA_ATTRIBUTES.

Record SLGAPointsConfig : Type := {
  area_name : string;
  points_path : string;
  attributes : list string;
  stat : string;
  depths : list string;
  scale : Z;
  export_root : string;
  make_parquet : bool;
  make_csv : bool;
  log_to_file : bool
}.

(** The defaults of the dataclass. *)
Definition make_SLGAPointsConfig (area path : string) : SLGAPointsConfig :=
  {| area_name := area; points_path := path; attributes := ["SOC"];
     stat := "EV"; depths := ["000_005"; "005_015"; "015_030"];
     scale := 90; export_root := "Outputs"; make_parquet := true;
     make_csv := false; log_to_file := true |}.

Section Validate.

(** How Python prints a list of texts inside an f-string. *)
Variable repr : list string -> string.

Definition _validate_cfg (cfg : SLGAPointsConfig) : result unit :=
  let bad_attr :=
    List.filter (fun a => negb (ee.has_name keys a)) (attributes cfg) in
  match bad_attr with
  | _ :: _ =>
      Raise (ValueError ("Unknown attributes: " ++ repr bad_attr
                         ++ ". Allowed: " ++ repr keys))
  | [] =>
      if negb (ee.has_name SLGA_STATS (stat cfg)) then
        Raise (ValueError ("stat must be one of " ++ repr SLGA_STATS))
      else
        match List.find (fun d => negb (ee.has_name SLGA_DEPTHS d)) (depths cfg) with
        | Some d =>
            Raise (ValueError ("Invalid depth '" ++ d ++ "'. Allowed: "
                               ++ repr SLGA_DEPTHS))
        | None => Return tt
        end
  end.

End Validate.

(** [f"{attr}_{d}_{stat}"]. *)
Definition band (attr stat d : string) : string :=
  attr ++ "_" ++ d ++ "_" ++ stat.

(** The names [_build_slga_image] selects from the image of one
    attribute. *)
Definition bands (attr stat : string) (depths : list string) : list string :=
  map (band attr stat) depths.

(** The names it selects over all attributes, in the order of
    [bands_total]. *)
Definition selected_bands (attributes : list string) (stat : string)
    (depths : list string) : list string :=
  flat_map (fun attr => bands attr stat depths) attributes.

(** Whether two names of the tables differ in attribute or depth only
    when they differ as texts. *)
Definition separate (s a d a' d' : string) : bool :=
  implb (String.eqb (band a s d) (band a' s d'))
        (String.eqb a a' && String.eqb d d').

(** Attributes and depths outside the tables whose names coincide. *)
Definition clashing : SLGAPointsConfig :=
  {| area_name := "farm"; points_path := "points.gpkg";
     attributes := ["SOC"; "SOC_000"]; stat := "EV";
     depths := ["000_005"; "005"]; scale := 90; export_root := "Outputs";
     make_parquet := true; make_csv := false; log_to_file := true |}.

End slga.

(** * Properties *)

Import ee.

(** ** The cube *)

Section Cube.
Import cube.

Lemma length_add_bands (src dst : list Band) :
  List.length (fold_left add_band src dst)
  = (List.length dst + List.length src)%nat.
Proof.
  revert dst. induction src as [|b src IH]; intros dst; simpl.
  - lia.
  - rewrite IH. unfold add_band. rewrite length_app. simpl. lia.
Qed.

Lemma length_addBands (dst src : Image) :
  List.length (bands (addBands dst src))
  = (List.length (bands dst) + List.length (bands src))%nat.
Proof. apply length_add_bands. Qed.

(** The fold of [assemble_cube] from an image on. *)
Lemma iterate_acc_count (l : list Image) (acc : Image) :
  exists out,
    iterate (fun img prev =>
        required "Image.addBands" "dstImg" prev
          (fun prev => Value (addBands prev img))) (Value acc) l
    = Value out
    /\ List.length (bands out)
       = (List.length (bands acc)
          + list_sum (map (fun i => List.length (bands i)) l))%nat.
Proof.
  revert acc. induction l as [|i l IH]; intros acc.
  - exists acc. simpl. split; [reflexivity | lia].
  - unfold iterate in *. simpl.
    destruct (IH (addBands acc i)) as (out & Hout & Hlen).
    exists out. split; [exact Hout |].
    rewrite Hlen, length_addBands. lia.
Qed.

(** The bands of the first month are counted twice: as the start of the
    fold, and again as the first element the fold runs over. *)
Lemma assemble_cube_band_count (first : Image) (rest renamed : list Image) :
  map_computed rename_with_date (first :: rest) = Value renamed ->
  exists out,
    assemble_cube (first :: rest) = Value out
    /\ List.length (bands out)
       = (List.length (bands (List.hd first renamed))
          + list_sum (map (fun i => List.length (bands i)) renamed))%nat.
Proof.
  intros Hren. unfold assemble_cube. rewrite Hren. simpl.
  destruct renamed as [|r renamed].
  - simpl in Hren.
    destruct (rename_with_date first); simpl in Hren; try discriminate.
    destruct (map_computed rename_with_date rest); discriminate.
  - simpl. apply (iterate_acc_count (r :: renamed) r).
Qed.

(** C1. On the three monthly composites of band NDVI labelled 2018-01,
    2018-02 and 2018-03 the cube has four bands, not three: the first
    month is added a second time and comes out as NDVI_2018-01_1. *)
Theorem assemble_cube_three_months :
  fmap bandNames (assemble_cube data.three_months)
  = Value ["NDVI_2018-01"; "NDVI_2018-01_1"; "NDVI_2018-02"; "NDVI_2018-03"].
Proof. vm_compute. reflexivity. Qed.

(** The claim of C3 read on the value: an empty sequence is no error of
    [assemble_cube]. *)
Lemma assemble_cube_empty_is_no_failure :
  ~ (exists msg, assemble_cube [] = Failure msg).
Proof. intros [msg H]. vm_compute in H. discriminate. Qed.

(** C3, amended. On the empty sequence [assemble_cube] checks nothing:
    its value is the null first element of the empty collection, which is
    no image (so no zero-band image either); the error comes when the
    bands of that value are asked for, as the orchestrator's band count
    does. *)
Theorem assemble_cube_empty_is_null :
  assemble_cube [] = Null
  /\ (forall img, assemble_cube [] <> Value img)
  /\ band_count (assemble_cube [])
     = Failure "Image.bandNames: Parameter 'image' is required.".
Proof.
  split; [reflexivity |]. split; [intros img H; discriminate H |].
  vm_compute. reflexivity.
Qed.

End Cube.

(** ** The monthly mosaics *)

Section Monthly.
Import date timeseries.

Lemma latest_ge_first t0 times : t0 <= latest t0 times.
Proof. induction times as [|t times IH]; simpl; lia. Qed.

Lemma latest_ge t0 times : Forall (fun t => t <= latest t0 times) times.
Proof.
  induction times as [|t times IH]; simpl; constructor.
  - lia.
  - eapply List.Forall_impl; [| exact IH]. simpl. intros; lia.
Qed.

Lemma latest_in t0 times : In (latest t0 times) (t0 :: times).
Proof.
  induction times as [|t times IH]; simpl; [now left |].
  destruct (Z.max_spec t (latest t0 times)) as [[_ ->] | [_ ->]].
  - destruct IH as [IH | IH]; [now left | right; now right].
  - right. now left.
Qed.

(** A descending sort puts a latest scene first. *)
Lemma sort_descending_head (ts : ImageCollection) (times : list Z) :
  map time_start ts = map Some times ->
  match sort "system:time_start" false ts with
  | [] => times = []
  | img :: _ =>
      exists m, time_start img = Some m /\ In m times
                /\ Forall (fun t => t <= m) times
  end.
Proof.
  revert times. induction ts as [|x ts IH]; intros times Hmap.
  - destruct times; [reflexivity | discriminate].
  - destruct times as [|t times]; [discriminate |].
    simpl in Hmap. injection Hmap as Hx Hts.
    specialize (IH times Hts). simpl.
    destruct (sort "system:time_start" false ts) as [|y l].
    + subst times. simpl. exists t. split; [exact Hx |].
      split; [now left |]. constructor; [lia | constructor].
    + destruct IH as (m & Hy & Hin & Hall). simpl.
      unfold time_start in Hx, Hy. rewrite Hx, Hy. simpl.
      destruct (m <=? t) eqn:Hle.
      * apply Z.leb_le in Hle. exists t. split; [exact Hx |].
        split; [now left |]. constructor; [lia |].
        eapply List.Forall_impl; [| exact Hall]. simpl. intros; lia.
      * apply Z.leb_gt in Hle. exists m. split; [exact Hy |].
        split; [now right |]. constructor; [lia | exact Hall].
Qed.

Lemma latest_unique t0 times m :
  In m (t0 :: times) -> Forall (fun t => t <= m) (t0 :: times) ->
  m = latest t0 times.
Proof.
  intros Hin Hall.
  assert (latest t0 times <= m).
  { pose proof (latest_in t0 times) as H.
    rewrite List.Forall_forall in Hall. apply Hall. exact H. }
  assert (m <= latest t0 times).
  { destruct Hin as [<- | Hin]; [apply latest_ge_first |].
    pose proof (latest_ge t0 times) as H0.
    rewrite List.Forall_forall in H0. apply H0. exact Hin. }
  lia.
Qed.

Lemma whole_months (t1 t0 : Z) :
  Number_int (difference_month t1 t0) = (t1 - t0) ÷ MS_PER_MONTH.
Proof.
  unfold Number_int, difference_month, MS_PER_MONTH. simpl.
  rewrite Z.mul_1_r. reflexivity.
Qed.

Lemma length_List_sequence (a b : Z) :
  List.length (List_sequence a b) = Z.to_nat (b - a + 1).
Proof. unfold List_sequence. rewrite length_map, length_seq. reflexivity. Qed.

(** The count and the windows, whatever the order of the series: the
    start is the date of the first element as stored. *)
Lemma safe_monthly_mosaics_from_first (ts : ImageCollection) (t0 : Z)
    (times : list Z) :
  map time_start ts = map Some (t0 :: times) ->
  safe_monthly_mosaics ts
  = Value (map (fun i => by_month ts (advance_month t0 i))
               (List_sequence 0 ((latest t0 times - t0) ÷ MS_PER_MONTH))).
Proof.
  intros Hmap.
  pose proof (sort_descending_head ts (t0 :: times) Hmap) as Hsort.
  unfold safe_monthly_mosaics.
  destruct ts as [|i0 ts]; [discriminate |].
  simpl in Hmap. injection Hmap as Hi0 Hts.
  destruct (sort "system:time_start" false (i0 :: ts)) as [|y l];
    [discriminate |].
  destruct Hsort as (m & Hy & Hin & Hall).
  apply latest_unique in Hin; [| exact Hall]. subst m.
  simpl. unfold image_date. rewrite Hi0, Hy. simpl.
  rewrite whole_months, map_map. reflexivity.
Qed.

(** C2 as written fails on a series in acquisition order: scenes of
    31 January and 1 March 2018 give one composite (labelled 2018-01),
    where the calendar months January to March are three. *)
Lemma monthly_mosaics_not_per_calendar_month :
  fmap month_labels (safe_monthly_mosaics data.late_january_early_march)
  = Value [Some (PStr "2018-01")]
  /\ spec.monthly_labels data.late_january_early_march
     = Some ["2018-01"; "2018-02"; "2018-03"].
Proof. split; vm_compute; reflexivity. Qed.

(** No ascending sort is made for the start: on a series stored latest
    first, the start is the latest scene. *)
Lemma monthly_mosaics_start_is_first_stored :
  fmap month_labels (safe_monthly_mosaics data.march_before_january)
  = Value [Some (PStr "2018-03")]
  /\ spec.first_observed data.march_before_january
     = Some (of_civil 2018 1 10).
Proof. split; vm_compute; reflexivity. Qed.

Lemma earliest_first (t0 : Z) (times : list Z) :
  List.Forall (fun t => t0 <= t) times -> earliest t0 times = t0.
Proof.
  induction 1 as [|t times Ht _ IH]; simpl; [reflexivity |].
  rewrite IH. lia.
Qed.

(** C2, amended. For a non-empty series of timestamped scenes whose
    first element is its earliest, there are exactly [n + 1] composites,
    [n] the whole number of average months (30.436875 days) from the
    earliest to the latest acquisition; composite [i] is the mosaic of
    the scenes within one month of the earliest acquisition instant
    advanced by [i] months, labelled with the year and month of that
    instant. *)
Theorem safe_monthly_mosaics_count (ts : ImageCollection) (t0 : Z)
    (times : list Z) :
  map time_start ts = map Some (t0 :: times) ->
  List.Forall (fun t => t0 <= t) times ->
  let start := earliest t0 times in
  let n := (latest t0 times - start) ÷ MS_PER_MONTH in
  exists out,
    safe_monthly_mosaics ts = Value out
    /\ List.length out = S (Z.to_nat n)
    /\ 0 <= n
    /\ forall i, (i <= Z.to_nat n)%nat ->
         let d := advance_month start (Z.of_nat i) in
         nth_error out i
         = Some (set (mosaic (filterDate d (advance_month d 1) ts))
                     "date" (PStr (format_YYYY_MM d))).
Proof.
  intros Hmap Hfirst start n. subst start n.
  rewrite (earliest_first t0 times Hfirst).
  set (n := (latest t0 times - t0) ÷ MS_PER_MONTH).
  assert (Hn : 0 <= n).
  { subst n. apply Z.quot_pos; [| unfold MS_PER_MONTH; lia].
    pose proof (latest_ge_first t0 times). lia. }
  eexists. split; [apply (safe_monthly_mosaics_from_first ts t0 times Hmap) |].
  fold n. split; [| split; [exact Hn |]].
  - rewrite length_map, length_List_sequence. f_equal. lia.
  - intros i Hi d. rewrite nth_error_map. unfold List_sequence.
    rewrite nth_error_map, nth_error_seq.
    destruct (Nat.ltb_spec i (Z.to_nat (n - 0 + 1))) as [_ | Hge]; [| lia].
    simpl. reflexivity.
Qed.

Lemma safe_monthly_mosaics_count_witness :
  exists out,
    safe_monthly_mosaics data.every_other_month = Value out
    /\ List.length out = 10%nat.
Proof.
  destruct (safe_monthly_mosaics_count data.every_other_month
              (of_civil 2018 1 5)
              (map (fun m => of_civil 2018 m 5) [3; 5; 7; 9; 11]))
    as (out & Hout & Hlen & _).
  - vm_compute. reflexivity.
  - repeat constructor; vm_compute; discriminate.
  - exists out. split; [exact Hout | exact Hlen].
Defined.

End Monthly.

(** ** The index library *)

Section Indices.
Import indices.


(** The indices that divide by an exact zero where every band is zero. *)
Lemma unguarded_at_zero_pixel :
  map fst (List.filter (fun kf => divides_by_zero (fun x => x) (fun _ => 0%Q) (snd kf))
             INDEX_FUNCS)
  = ["NDVI"; "NDWI"; "GNDVI"; "WDRVI"; "NDRE"; "NDMI"; "NBR"; "MNDWI"].
Proof. vm_compute. reflexivity. Qed.




End Indices.

(** ** Applying the requested indices *)

Section ApplyIndices.
Import indices.

Lemma has_name_true (names : list string) (n : string) :
  has_name names n = true <-> In n names.
Proof.
  unfold has_name. rewrite existsb_exists. split.
  - intros (x & Hx & Heq). apply String.eqb_eq in Heq. now subst.
  - intros H. exists n. split; [exact H | apply String.eqb_refl].
Qed.

Lemma band_of_has_name (img : Image) (b : string) :
  has_name (bandNames img) b = true -> exists p, band_of img b = Some p.
Proof.
  unfold band_of, bandNames. intros H. apply has_name_true in H.
  induction (bands img) as [|x l IH]; simpl in *; [contradiction |].
  destruct (String.eqb_spec (band_name x) b) as [Heq | Hne].
  - eexists. reflexivity.
  - destruct H as [H | H]; [contradiction |]. exact (IH H).
Qed.

Lemma has_bands_In (img : Image) (l : list string) (b : string) :
  has_bands img l = true -> In b l -> has_name (bandNames img) b = true.
Proof.
  unfold has_bands. intros H Hin.
  rewrite forallb_forall in H. exact (H b Hin).
Qed.

Lemma map_computed_select (img : Image) (l : list string) :
  List.Forall (fun b => has_name (bandNames img) b = true) l ->
  exists inputs, map_computed (select img) l = Value inputs.
Proof.
  induction 1 as [|b l Hb _ IH]; simpl.
  - eexists. reflexivity.
  - destruct IH as (inputs & ->). unfold select.
    destruct (band_of_has_name img b Hb) as (p & ->). simpl.
    eexists. reflexivity.
Qed.

(** Every formula of the registry selects canonical bands only. *)
Lemma registry_selects_canonical :
  forallb (fun kf : string * formula =>
             forallb (has_name CANONICAL) (remove_dups (selections (snd kf))))
          INDEX_FUNCS = true.
Proof. vm_compute. reflexivity. Qed.

Lemma index_image_canonical (img : Image) (key : string) (f : formula) :
  has_bands img CANONICAL = true -> In (key, f) INDEX_FUNCS ->
  exists inputs,
    index_image key f img = Value (mkImage [mkBand key (Derived f inputs)] ∅).
Proof.
  intros Hbands Hin. unfold index_image.
  pose proof registry_selects_canonical as Hreg.
  rewrite forallb_forall in Hreg. specialize (Hreg _ Hin). simpl in Hreg.
  rewrite forallb_forall in Hreg.
  destruct (map_computed_select img (remove_dups (selections f))) as (inputs & ->).
  - apply List.Forall_forall. intros b Hb.
    apply (has_bands_In img CANONICAL); [exact Hbands |].
    apply has_name_true. apply Hreg. exact Hb.
  - simpl. eexists. reflexivity.
Qed.

Lemma assoc_In {A : Type} (k : string) (l : list (string * A)) (v : A) :
  assoc k l = Some v -> In (k, v) l.
Proof.
  induction l as [|[k' v'] l IH]; simpl; [discriminate |].
  destruct (String.eqb_spec k k') as [-> | _].
  - intros [= ->]. now left.
  - intros H. right. exact (IH H).
Qed.

Lemma fold_insert_upper (keys : list string) (m : gmap string string)
    (n key : string) :
  fold_left (fun m k => <[upper k := k]> m) keys m !! n = Some key ->
  m !! n = Some key \/ In (n, key) (map (fun k => (upper k, k)) keys).
Proof.
  revert m. induction keys as [|k keys IH]; intros m H; simpl in *.
  - now left.
  - destruct (IH _ H) as [Hm | Hin].
    + destruct (decide (upper k = n)) as [<- | Hne].
      * rewrite lookup_insert_eq in Hm. injection Hm as <-.
        right. now left.
      * rewrite lookup_insert_ne in Hm by exact Hne. now left.
    + right. now right.
Qed.

(** The keys of [canon] are the upper-cased registry names, its values
    the registry names. *)
Lemma canon_entries (n key : string) :
  canon !! n = Some key ->
  In (n, key) (map (fun k => (upper k, k)) (map fst INDEX_FUNCS)).
Proof.
  intros H. apply fold_insert_upper in H.
  destruct H as [H | H]; [| exact H].
  rewrite lookup_empty in H. discriminate.
Qed.

Lemma canon_value_registered (n key : string) :
  canon !! n = Some key ->
  key <> "" /\ assoc key INDEX_FUNCS = Some (formula_of key).
Proof.
  intros H. apply canon_entries in H. simpl in H.
  repeat (destruct H as [H | H];
          [injection H as <- <-; split; [discriminate | reflexivity] |]).
  contradiction.
Qed.

(** [add_index] in terms of the registry entry the name selects. *)
Lemma add_index_recognised (img : Image) (out : computed Image) (n : string) :
  add_index img out n
  = match recognised n with
    | None => out
    | Some (key, f) =>
        required "Image.addBands" "dstImg" out (fun out =>
        required "Image.addBands" "srcImg" (index_image key f img) (fun idx =>
        Value (addBands out idx)))
    end.
Proof.
  unfold add_index, recognised.
  destruct (canon !! n) as [key |] eqn:Hc; [| reflexivity].
  destruct (canon_value_registered n key Hc) as [Hne Hf].
  rewrite Hf. destruct key; [contradiction | reflexivity].
Qed.

Lemma recognised_In (n key : string) (f : formula) :
  recognised n = Some (key, f) -> In (key, f) INDEX_FUNCS.
Proof.
  unfold recognised. destruct (canon !! n) as [k |]; [| discriminate].
  destruct k as [| c k]; [discriminate |].
  destruct (assoc (String c k) INDEX_FUNCS) as [g |] eqn:Hg; [| discriminate].
  cbn [option_map]. intros [= <- <-]. exact (assoc_In _ _ _ Hg).
Qed.

(** The names of the 20 m set are registry names. *)
Lemma require_20m_recognised (n : string) :
  has_name INDICES_REQUIRE_20M n = true -> recognised n <> None.
Proof.
  intros H. apply has_name_true in H. simpl in H.
  repeat (destruct H as [<- | H]; [vm_compute; discriminate |]).
  contradiction.
Qed.

(** The loop of [apply_indices] from an image that already carries the
    bands [extra] after those of [img]. *)
Lemma fold_add_index (img : Image) (l : list string) :
  has_bands img CANONICAL = true ->
  forall extra,
  exists more,
    fold_left (add_index img) l (Value (mkImage (bands img ++ extra) (props img)))
    = Value (mkImage (bands img ++ extra ++ more) (props img))
    /\ Forall2 (fun b kf => exists inputs, band_data b = Derived (snd kf) inputs)
         more (omap recognised l)
    /\ map band_name more
       = added_names (bandNames img ++ map band_name extra)
           (map fst (omap recognised l)).
Proof.
  intros Hbands. induction l as [|n l IH]; intros extra.
  - exists []. simpl. rewrite app_nil_r. repeat split. constructor.
  - simpl. rewrite add_index_recognised.
    destruct (recognised n) as [[key f] |] eqn:Hrec.
    + destruct (index_image_canonical img key f Hbands (recognised_In _ _ _ Hrec))
        as (inputs & ->).
      simpl. unfold addBands. simpl. unfold add_band at 1. simpl.
      set (b := mkBand (free_name (map band_name (bands img ++ extra)) key)
                       (Derived f inputs)).
      rewrite <- app_assoc.
      destruct (IH (extra ++ [b])%list) as (more & Hfold & Hdata & Hnames).
      exists (b :: more). rewrite Hfold. split.
      * rewrite <- !app_assoc. reflexivity.
      * split.
        -- constructor; [exists inputs; reflexivity | exact Hdata].
        -- simpl. rewrite Hnames. unfold bandNames. subst b.
           rewrite !map_app, <- !app_assoc. simpl.
           rewrite ?map_app. reflexivity.
    + destruct (IH extra) as (more & Hfold & Hdata & Hnames).
      exists more. repeat split; assumption.
Qed.

Lemma fold_add_index_unrecognised (img : Image) (l : list string)
    (out : computed Image) :
  omap recognised l = [] -> fold_left (add_index img) l out = out.
Proof.
  revert out. induction l as [|n l IH]; intros out H; [reflexivity |].
  simpl in *. rewrite add_index_recognised.
  destruct (recognised n); [discriminate |]. apply IH. exact H.
Qed.

Lemma existsb_false_unrecognised (l : list string) :
  omap recognised l = [] ->
  existsb (fun n => has_name INDICES_REQUIRE_20M n) l = false.
Proof.
  induction l as [|n l IH]; intros H; [reflexivity |].
  simpl in H. destruct (recognised n) eqn:Hrec; [discriminate |].
  cbn [existsb]. rewrite (IH H), orb_false_r.
  destruct (has_name INDICES_REQUIRE_20M n) eqn:H20; [| reflexivity].
  apply require_20m_recognised in H20. contradiction.
Qed.

Lemma index_image_available (img : Image) (key : string) (f : formula) :
  has_bands img (selections f) = true ->
  exists inputs,
    index_image key f img = Value (mkImage [mkBand key (Derived f inputs)] ∅).
Proof.
  intros Hbands. unfold index_image.
  destruct (map_computed_select img (remove_dups (selections f))) as (inputs & ->).
  - apply List.Forall_forall. intros b Hb.
    apply (has_bands_In img (selections f)); [exact Hbands |].
    apply list_elem_of_In. apply elem_of_remove_dups.
    apply list_elem_of_In. exact Hb.
  - simpl. eexists. reflexivity.
Qed.

(** The loop of [apply_indices] on an image that has the bands the
    recognised names select, from an image that already carries the
    bands [extra] after those of [img]. *)
Lemma fold_add_index_available (img : Image) (l : list string) :
  has_bands img
    (flat_map (fun kf : string * formula => selections (snd kf))
       (omap recognised l)) = true ->
  forall extra,
  exists more,
    fold_left (add_index img) l (Value (mkImage (bands img ++ extra) (props img)))
    = Value (mkImage (bands img ++ extra ++ more) (props img))
    /\ Forall2 (fun b kf => exists inputs, band_data b = Derived (snd kf) inputs)
         more (omap recognised l)
    /\ map band_name more
       = added_names (bandNames img ++ map band_name extra)
           (map fst (omap recognised l)).
Proof.
  induction l as [|n l IH]; intros Hbands extra.
  - exists []. simpl. rewrite app_nil_r. repeat split. constructor.
  - simpl. simpl in Hbands. rewrite add_index_recognised.
    destruct (recognised n) as [[key f] |] eqn:Hrec.
    + simpl in Hbands. unfold has_bands in Hbands.
      rewrite forallb_app in Hbands. apply andb_true_iff in Hbands.
      destruct Hbands as [Hf Hrest].
      destruct (index_image_available img key f Hf) as (inputs & ->).
      simpl. unfold addBands. simpl. unfold add_band at 1. simpl.
      set (b := mkBand (free_name (map band_name (bands img ++ extra)) key)
                       (Derived f inputs)).
      rewrite <- app_assoc.
      destruct (IH Hrest (extra ++ [b])%list) as (more & Hfold & Hdata & Hnames).
      exists (b :: more). rewrite Hfold. split.
      * rewrite <- !app_assoc. reflexivity.
      * split.
        -- constructor; [exists inputs; reflexivity | exact Hdata].
        -- simpl. rewrite Hnames. unfold bandNames. subst b.
           rewrite !map_app, <- !app_assoc. simpl.
           rewrite ?map_app. reflexivity.
    + destruct (IH Hbands extra) as (more & Hfold & Hdata & Hnames).
      exists more. repeat split; assumption.
Qed.

(** C10 as written fails on an image without the NIR band when NDVI is
    requested: nothing is returned, so no band is kept and no property
    is set. *)
Lemma apply_indices_needs_its_bands :
  bandNames cases_indices.visible_only = ["BLUE"; "GREEN"; "RED"]
  /\ apply_indices cases_indices.visible_only (Some [Some "NDVI"])
     = Failure "Image.select: Pattern 'NIR' did not match any bands.".
Proof. split; vm_compute; reflexivity. Qed.

(** C10, amended. For an image that has the bands the recognised
    requests are computed from, [apply_indices] keeps the bands of the
    image first and in order, appends one band per recognised request
    (in request order, computed by the registry's formula, named as
    [addBands] names it), and writes [has_20m_indices], which is true
    exactly when a trimmed and upper-cased request is one of NDRE, CIRE,
    NDMI, NBR, MNDWI; when no request is recognised, only that property
    changes, on any image. *)
Theorem apply_indices_frame :
  (forall img names,
     has_bands img (needed names) = true ->
     exists extra flag,
       apply_indices img names
       = Value (mkImage (bands img ++ extra)
                  (<["has_20m_indices" := PBool flag]> (props img)))
       /\ Forall2 (fun b kf => exists inputs, band_data b = Derived (snd kf) inputs)
            extra (requested names)
       /\ map band_name extra
          = added_names (bandNames img) (map fst (requested names))
       /\ (flag = true <->
           exists l s, names = Some l /\ In (Some s) l
                       /\ In (upper (strip s)) ["NDRE"; "CIRE"; "NDMI"; "NBR"; "MNDWI"]))
  /\ (forall img names,
        requested names = [] ->
        apply_indices img names
        = Value (mkImage (bands img)
                   (<["has_20m_indices" := PBool false]> (props img)))).
Proof.
  split.
  - intros img names Hbands. unfold apply_indices.
    destruct (fold_add_index_available img (normalise names) Hbands []) as
      (more & Hfold & Hdata & Hnames).
    rewrite app_nil_r in Hfold. destruct img as [bs ps].
    cbn [bands props] in *. rewrite Hfold. cbn [required set bands props].
    exists more, (existsb (fun n => has_name INDICES_REQUIRE_20M n) (normalise names)).
    split; [reflexivity |]. split; [exact Hdata |].
    split; [rewrite Hnames; simpl; rewrite app_nil_r; reflexivity |].
    rewrite existsb_exists. split.
    + intros (n & Hn & H20). apply has_name_true in H20.
      destruct names as [l |]; [| contradiction]. simpl in Hn.
      apply list_elem_of_In, list_elem_of_omap in Hn.
      destruct Hn as (s & Hs & Heq). destruct s as [s |]; [| discriminate].
      simpl in Heq. injection Heq as <-.
      exists l, s. split; [reflexivity |].
      split; [apply list_elem_of_In; exact Hs | exact H20].
    + intros (l & s & -> & Hs & H20). exists (upper (strip s)).
      split; [| apply has_name_true; exact H20].
      simpl. apply list_elem_of_In, list_elem_of_omap.
      exists (Some s). split; [apply list_elem_of_In; exact Hs | reflexivity].
  - intros img names Hnone. unfold apply_indices, requested in *.
    rewrite (fold_add_index_unrecognised img _ _ Hnone),
      (existsb_false_unrecognised _ Hnone).
    reflexivity.
Qed.

Lemma apply_indices_frame_witness :
  exists out,
    apply_indices data.red_edge_scene
      (Some [Some "ndre"; Some "what"; None; Some " EVI "])
    = Value out
    /\ bandNames out = ["NIR"; "RED"; "BLUE"; "RE4"; "NDRE"; "EVI"]
    /\ props out !! "has_20m_indices" = Some (PBool true)
    /\ apply_indices data.red_edge_scene (Some [Some "what"; None])
       = Value (set data.red_edge_scene "has_20m_indices" (PBool false)).
Proof.
  destruct apply_indices_frame as [Hframe Hnone].
  destruct (Hframe data.red_edge_scene
              (Some [Some "ndre"; Some "what"; None; Some " EVI "]))
    as (extra & flag & Hout & _ & Hnames & Hflag).
  - vm_compute. reflexivity.
  - assert (Hn : map band_name extra = ["NDRE"; "EVI"])
      by (rewrite Hnames; vm_compute; reflexivity).
    eexists. split; [exact Hout |]. split.
    + unfold bandNames. cbn [bands]. rewrite List.map_app, Hn. reflexivity.
    + split.
      * cbn [props]. rewrite lookup_insert_eq. f_equal. f_equal.
        apply Hflag. exists [Some "ndre"; Some "what"; None; Some " EVI "], "ndre".
        split; [reflexivity |]. split; [now left | vm_compute; now left].
      * apply (Hnone data.red_edge_scene (Some [Some "what"; None])).
        vm_compute. reflexivity.
Defined.








End ApplyIndices.

(** ** SILO: snapping to the 0.05 degree grid *)

Section Snap.
Import py silo.
Local Open Scope Q_scope.


Lemma in_cells (n : nat) (k : Z) :
  (- Z.of_nat n <= k <= Z.of_nat n)%Z -> In k (cells n).
Proof.
  intros Hk. unfold cells. apply in_map_iff.
  exists (Z.to_nat (k + Z.of_nat n)). split; [lia |].
  apply in_seq. lia.
Qed.



(** A coordinate whose quotient rounds to a cell within 180 degrees of
    zero snaps to the value of that cell. *)
Lemma snap05_cell (x : float) (k : Z) :
  round_float (x / 0.05)%float = Return k -> (-3600 <= k <= 3600)%Z ->
  _snap05 x = Return (grid k).
Proof.
  intros Hround Hk. unfold _snap05. rewrite Hround. cbn [bind].
  assert (Hall : forallb (fun k => match float_of_int k with
                                   | Return _ => true
                                   | Raise _ => false
                                   end) (cells 3600) = true)
    by (vm_compute; reflexivity).
  rewrite forallb_forall in Hall.
  assert (Hin : In k (cells 3600)) by (apply (in_cells 3600); simpl; lia).
  specialize (Hall k Hin). unfold float_of_int, grid in *.
  destruct (binary_normalize prec emax k 0 false); try reflexivity.
  discriminate.
Qed.






End Snap.

(** ** SOF: the request plan *)

Section Sof.
Import py sof.

Lemma consider_fold (fam d st : string) (fracs : list string) (pl : plan) :
  fold_left (fun pl frac => consider pl fam d st frac) fracs pl
  = {| requests := requests pl
         ++ List.filter available (map (fun frac => (fam, d, st, frac)) fracs);
       warnings := warnings pl
         ++ List.filter (fun r => negb (available r))
              (map (fun frac => (fam, d, st, frac)) fracs) |}.
Proof.
  revert pl. induction fracs as [|frac fracs IH]; intros pl.
  - simpl. rewrite !app_nil_r. destruct pl; reflexivity.
  - cbn [fold_left map List.filter]. rewrite IH. unfold consider.
    change (available (fam, d, st, frac)) with (_sof_is_available fam d st frac).
    destruct (_sof_is_available fam d st frac); cbn [requests warnings negb];
      rewrite <- ?app_assoc; reflexivity.
Qed.

Lemma plan_family_candidates (cfg : SOFPointsConfig) (pl : plan) (fam : string) :
  plan_family cfg pl fam
  = {| requests := requests pl ++ List.filter available (candidates cfg fam);
       warnings := warnings pl
         ++ List.filter (fun r => negb (available r)) (candidates cfg fam) |}.
Proof.
  unfold plan_family, candidates. destruct (String.eqb fam "Stocks").
  - apply consider_fold.
  - revert pl. induction (depths cfg) as [|d ds IH]; intros pl.
    + simpl. rewrite !app_nil_r. destruct pl; reflexivity.
    + cbn [fold_left flat_map]. rewrite IH, consider_fold.
      cbn [requests warnings]. rewrite !List.filter_app, <- !app_assoc. reflexivity.
Qed.

Lemma plan_candidates (cfg : SOFPointsConfig) (fams : list string) (pl : plan) :
  fold_left (plan_family cfg) fams pl
  = {| requests := requests pl
         ++ List.filter available (flat_map (candidates cfg) fams);
       warnings := warnings pl
         ++ List.filter (fun r => negb (available r))
              (flat_map (candidates cfg) fams) |}.
Proof.
  revert pl. induction fams as [|fam fams IH]; intros pl.
  - simpl. rewrite !app_nil_r. destruct pl; reflexivity.
  - cbn [fold_left flat_map]. rewrite IH, plan_family_candidates.
    cbn [requests warnings]. rewrite !List.filter_app, <- !app_assoc. reflexivity.
Qed.

Lemma isin_In (x : string) (l : list string) : isin x l = true <-> In x l.
Proof.
  unfold isin, ee.has_name. rewrite existsb_exists. split.
  - intros (y & Hy & Heq). apply String.eqb_eq in Heq. now subst.
  - intros H. exists x. split; [exact H | apply String.eqb_refl].
Qed.

(** A combination of the table has a file behind it. *)
Lemma available_has_url (r : request) :
  available r = true -> exists url, url_of r = Return url.
Proof.
  destruct r as [[[fam d] st] frac]. unfold available, url_of, _sof_is_available.
  destruct (String.eqb_spec fam "Fractions_Density") as [-> | _].
  - intros H. apply andb_true_iff in H. destruct H as [Hd Hs].
    unfold _sof_url. cbn [indices.assoc String.eqb Ascii.eqb Bool.eqb FAMILIES].
    unfold DEPTHS, STATS. rewrite Hd, Hs. simpl. eexists. reflexivity.
  - destruct (String.eqb_spec fam "Proportions") as [-> | _].
    + unfold _sof_url. cbn [indices.assoc String.eqb Ascii.eqb Bool.eqb FAMILIES].
      destruct (String.eqb_spec d "000_005") as [-> | _].
      * intros Hs. unfold STATS. rewrite Hs. simpl. eexists. reflexivity.
      * destruct (isin d ["005_015"; "015_030"]) eqn:Hd; [| discriminate].
        intros Hs. apply isin_In in Hd, Hs.
        destruct Hd as [<- | [<- | []]]; destruct Hs as [<- | [<- | []]];
          simpl; eexists; reflexivity.
    + destruct (String.eqb_spec fam "Stocks") as [-> | _]; [| discriminate].
      intros H. apply andb_true_iff in H. destruct H as [Hd Hs].
      apply String.eqb_eq in Hd, Hs. subst. simpl. eexists. reflexivity.
Qed.

(** C7 as written fails for the Stocks family: asked for at the depth
    000_005, which the table does not list, the sampler gives no warning
    and requests depth 000_030 instead. *)
Lemma stocks_depth_replaced_without_warning :
  _sof_is_available "Stocks" "000_005" "EV" "MAOC" = false
  /\ sof_points_quick_plan data.stocks_at_000_005
     = Return {| requests := [("Stocks", "000_030", "EV", "MAOC")];
                 warnings := [] |}.
Proof. split; vm_compute; reflexivity. Qed.

(** C7, amended. The table lists no Stocks at depth 000_005, lists
    Proportions at 000_005 with statistic 05, and does not list
    Proportions at 015_030 with EV.  In a run that passes validation the
    requests are the listed ones among the combinations put to the
    table, in order, and the warnings are the unlisted ones: nothing
    unlisted is requested, and every request has its file URL.  The
    combinations put to the table are, for a family other than Stocks,
    every configured depth and fraction at the configured statistic; for
    Stocks they are depth 000_030 and EV with every configured fraction,
    the configured depths and statistic not being looked at. *)
Theorem sof_plan_follows_table (cfg : SOFPointsConfig) (pl : plan) :
  sof_points_quick_plan cfg = Return pl ->
  (forall st frac, _sof_is_available "Stocks" "000_005" st frac = false)
  /\ (forall frac, _sof_is_available "Proportions" "000_005" "05" frac = true)
  /\ (forall frac, _sof_is_available "Proportions" "015_030" "EV" frac = false)
  /\ requests pl
     = List.filter available (flat_map (candidates cfg) (families cfg))
  /\ warnings pl
     = List.filter (fun r => negb (available r))
         (flat_map (candidates cfg) (families cfg))
  /\ List.Forall (fun r => available r = true /\ exists url, url_of r = Return url)
       (requests pl)
  /\ (forall d st frac,
        In ("Stocks", d, st, frac) (requests pl) -> d = "000_030" /\ st = "EV").
Proof.
  intros Hplan.
  split; [reflexivity |]. split; [reflexivity |]. split; [reflexivity |].
  unfold sof_points_quick_plan in Hplan.
  destruct (first_bad _ (families cfg)); [discriminate |].
  destruct (first_bad _ (fractions cfg)); [discriminate |].
  destruct (first_bad _ (depths cfg)); [discriminate |].
  injection Hplan as <-. rewrite plan_candidates. cbn [requests warnings app].
  split; [reflexivity |]. split; [reflexivity |].
  assert (Hall : List.Forall (fun r => available r = true)
            (List.filter available (flat_map (candidates cfg) (families cfg)))).
  { apply List.Forall_forall. intros r Hr. apply filter_In in Hr. tauto. }
  split.
  - eapply List.Forall_impl; [| exact Hall]. intros r Hr.
    split; [exact Hr | apply available_has_url; exact Hr].
  - intros d st frac Hin. rewrite List.Forall_forall in Hall.
    specialize (Hall _ Hin). unfold available, _sof_is_available in Hall.
    cbn [String.eqb Ascii.eqb Bool.eqb] in Hall.
    apply andb_true_iff in Hall. destruct Hall as [Hd Hs].
    apply String.eqb_eq in Hd, Hs. now subst.
Qed.

Lemma sof_plan_follows_table_witness :
  sof_points_quick_plan data.proportions_ev
  = Return {| requests := [("Proportions", "000_005", "EV", "MAOC");
                           ("Proportions", "000_005", "EV", "POC")];
              warnings := [("Proportions", "015_030", "EV", "MAOC");
                           ("Proportions", "015_030", "EV", "POC")] |}
  /\ List.Forall (fun r => available r = true /\ exists url, url_of r = Return url)
       [("Proportions", "000_005", "EV", "MAOC");
        ("Proportions", "000_005", "EV", "POC")].
Proof.
  assert (H : sof_points_quick_plan data.proportions_ev
              = Return {| requests := [("Proportions", "000_005", "EV", "MAOC");
                                       ("Proportions", "000_005", "EV", "POC")];
                          warnings := [("Proportions", "015_030", "EV", "MAOC");
                                       ("Proportions", "015_030", "EV", "POC")] |})
    by (vm_compute; reflexivity).
  split; [exact H |].
  exact (proj1 (proj2 (proj2 (proj2 (proj2 (proj2
           (sof_plan_follows_table _ _ H))))))).
Defined.

End Sof.

(** ** SILO: the table of a run *)

Section Silo.
Import py silo.











End Silo.

(** ** The orchestrator *)

Section Runner.
Import py report runner.

Lemma path_not_empty (a b : string) : String.eqb (a ++ "/" ++ b) "" = false.
Proof. destruct a; reflexivity. Qed.

(** The two exports and the preview only add to the report. *)
Lemma late_stages_add (w : world) (cfg : Config) (r : RunReport) :
  map fst (steps (late_stages w cfg r))
    = (map fst (steps r) ++ late_steps w cfg)%list
  /\ errors (late_stages w cfg r) = (errors r ++ late_errors w cfg)%list
  /\ artifacts (late_stages w cfg r) = (artifacts r ++ late_artifacts w cfg)%list.
Proof.
  unfold late_stages, late_errors, late_artifacts, late_steps,
    export_cube_table, export_pixel_samples.
  destruct (table_ensure_dir w) as [[] | e1];
    destruct (table_reduce_and_write w) as [[] | e2];
    destruct (samples_ensure_dir w) as [[] | e3];
    destruct (samples_draw_and_write w) as [[] | e4];
    cbn [bind]; rewrite ?path_not_empty;
    (destruct (preview cfg); [destruct (show_on_map w) as [[] | e5] |]);
    cbn [add_artifact add_error add_step steps errors artifacts app];
    rewrite ?map_app, ?app_nil_r, <- ?app_assoc; repeat split; reflexivity.
Qed.

(** C9 as written fails: a region file that cannot be read ends the run
    with the report, the error recorded under [load_roi]; nothing is
    raised. *)
Lemma roi_failure_is_returned_not_raised :
  run_pipeline_quick data.roi_unreadable data.farm_2018
  = Return {| steps := [];
              errors := [("load_roi",
                          OSError "farm.gpkg: No such file or directory")];
              artifacts := [] |}.
Proof. vm_compute. reflexivity. Qed.

(** A failure inside an export function is caught there: the report
    gets neither an error nor an artifact for it. *)
Lemma export_failure_inside_leaves_no_trace :
  fmap_result errors
    (run_pipeline_quick data.reduction_and_preview_fail data.farm_2018)
  = Return [("preview", RuntimeError "no display")]
  /\ fmap_result artifacts
       (run_pipeline_quick data.reduction_and_preview_fail data.farm_2018)
     = Return [("Outputs/farm/2018/farm_2018_samples.parquet", "samples")].
Proof. split; vm_compute; reflexivity. Qed.

(** C9, amended. A run raises only when the configuration check or the
    logger setup raises.  Otherwise it returns its report.  When an
    early stage fails (Earth Engine initialisation, ROI load, time
    series, monthly mosaics, cube assembly) the run stops there: the
    report holds the steps of the stages before, that one error under
    the name of the stage, no artifact.  When the early stages pass, the
    exports and the preview all run: an exception one of them raises is
    recorded under its name and the next one still runs; a failure that
    an export function catches itself leaves no error and no artifact. *)
Theorem run_pipeline_quick_outcomes (w : world) (cfg : Config) :
  match validate w cfg, setup_logger w with
  | Raise e, _ => run_pipeline_quick w cfg = Raise e
  | Return _, Raise e => run_pipeline_quick w cfg = Raise e
  | Return _, Return _ =>
      exists r,
        run_pipeline_quick w cfg = Return r
        /\ match first_failure 0 (early_stages w) with
           | Some (passed, stage, e) =>
               map fst (steps r) = firstn (passed - 1) early_steps
               /\ errors r = [(stage, e)]
               /\ artifacts r = []
           | None =>
               map fst (steps r) = (early_steps ++ late_steps w cfg)%list
               /\ errors r = late_errors w cfg
               /\ artifacts r = late_artifacts w cfg
           end
  end.
Proof.
  unfold run_pipeline_quick.
  destruct (validate w cfg) as [[] | e]; [| reflexivity].
  destruct (setup_logger w) as [[] | e]; [| reflexivity].
  cbn [bind]. unfold early_stages.
  destruct (ee_Initialize w) as [[] | e];
    [| eexists; split; [reflexivity | repeat split]].
  destruct (load_roi w) as [[] | e];
    [| eexists; split; [reflexivity | repeat split]].
  destruct (compose_time_series w) as [[] | e];
    [| eexists; split; [reflexivity | repeat split]].
  destruct (safe_monthly_mosaics w) as [[] | e];
    [| eexists; split; [reflexivity | repeat split]].
  destruct (assemble_cube w) as [n | e];
    [| eexists; split; [reflexivity | repeat split]].
  eexists. split; [reflexivity |]. cbn [bind first_failure].
  match goal with
  | |- context [late_stages w cfg ?r] =>
      destruct (late_stages_add w cfg r) as (Hs & He & Ha)
  end.
  rewrite Hs, He, Ha. repeat split.
Qed.

Lemma run_pipeline_quick_outcomes_witness :
  exists r,
    run_pipeline_quick data.fine data.farm_2018 = Return r
    /\ map fst (steps r)
       = ["ROI loaded"; "Time series composed"; "Monthly mosaics created";
          "Cube assembled"; "Preview map ready"]
    /\ errors r = []
    /\ artifacts r
       = [("Outputs/farm/2018/farm_2018_cube_stats.parquet", "table");
          ("Outputs/farm/2018/farm_2018_samples.parquet", "samples")].
Proof.
  pose proof (run_pipeline_quick_outcomes data.fine data.farm_2018) as H.
  change (validate data.fine data.farm_2018) with (Return tt) in H.
  cbn [setup_logger data.fine] in H.
  destruct H as (r & Hr & H). exists r. split; [exact Hr |].
  vm_compute in H. exact H.
Defined.

End Runner.

(** * Further properties of the code *)

(** ** cube.py and timeseries.py *)

Section CubeMore.
Import date cube timeseries indices composer.

Lemma map_computed_values {A B : Type} (f : A -> B) (l : list A) :
  map_computed (fun a => Value (f a)) l = Value (map f l).
Proof.
  induction l as [|a l IH]; [reflexivity |]. simpl. rewrite IH. reflexivity.
Qed.

Lemma map_computed_length {A B : Type} (f : A -> computed B) (l : list A)
    (out : list B) :
  map_computed f l = Value out -> List.length out = List.length l.
Proof.
  revert out. induction l as [|a l IH]; intros out; simpl.
  - intros [= <-]. reflexivity.
  - destruct (f a) as [b | |]; try discriminate. simpl.
    destruct (map_computed f l) as [bs | |]; try discriminate. simpl.
    intros [= <-]. simpl. f_equal. apply IH. reflexivity.
Qed.

Lemma band_data_combine (names : list string) (bs : list Band) :
  List.length names = List.length bs ->
  map band_data
    (map (fun p : string * Band => mkBand (fst p) (band_data (snd p)))
       (combine names bs))
  = map band_data bs
  /\ map band_name
       (map (fun p : string * Band => mkBand (fst p) (band_data (snd p)))
          (combine names bs))
     = names.
Proof.
  revert bs. induction names as [|n names IH]; intros [|b bs] Hlen;
    try discriminate; [split; reflexivity |].
  simpl in Hlen. injection Hlen as Hlen. destruct (IH bs Hlen) as [Hd Hn].
  simpl. rewrite Hd, Hn. split; reflexivity.
Qed.

(** X1. Renaming with a month label: every band gets the label as
    suffix, the pixels and the metadata stay. *)
Theorem rename_with_date_labelled (img : Image) (d : string) :
  props img !! "date" = Some (PStr d) ->
  exists img',
    rename_with_date img = Value img'
    /\ bandNames img' = map (fun b => b ++ "_" ++ d) (bandNames img)
    /\ band_pixels img' = band_pixels img
    /\ props img' = props img.
Proof.
  intros Hd. unfold rename_with_date, get_string. rewrite Hd.
  cbn [required]. rewrite (map_computed_values (fun b => b ++ "_" ++ d)).
  cbn [required]. unfold rename.
  assert (Hlen : List.length (map (fun b => b ++ "_" ++ d) (bandNames img))
                 = List.length (bands img))
    by (unfold bandNames; rewrite !length_map; reflexivity).
  rewrite Hlen, Nat.eqb_refl.
  destruct (band_data_combine _ _ Hlen) as [Hdata Hnames].
  eexists. split; [reflexivity |]. unfold band_pixels, bandNames at 1.
  cbn [bands props]. rewrite Hdata, Hnames. repeat split.
Qed.

Lemma rename_with_date_labelled_witness :
  fmap bandNames (rename_with_date (cases.two_band_month "2019-05"))
  = Value ["NDVI_2019-05"; "EVI_2019-05"].
Proof.
  destruct (rename_with_date_labelled (cases.two_band_month "2019-05") "2019-05")
    as (img' & -> & Hn & _).
  - reflexivity.
  - cbn [fmap]. rewrite Hn. reflexivity.
Defined.

(** X2. Without a month label the renaming fails as soon as there is a
    band to rename; an image without bands passes unchanged, labelled or
    not. *)
Theorem rename_with_date_unlabelled (img : Image) :
  (props img !! "date" = None -> bands img <> [] ->
   exists msg, rename_with_date img = Failure msg)
  /\ (bands img = [] -> rename_with_date img = Value img).
Proof.
  split.
  - intros Hd Hb. unfold rename_with_date, get_string, bandNames. rewrite Hd.
    destruct (bands img) as [|b bs]; [contradiction |].
    eexists. reflexivity.
  - intros Hb. unfold rename_with_date, bandNames, rename. rewrite Hb.
    destruct img as [bs ps]. simpl in Hb. subst bs. reflexivity.
Qed.

Lemma rename_with_date_unlabelled_witness :
  exists msg, rename_with_date cases.unlabelled = Failure msg.
Proof.
  apply (proj1 (rename_with_date_unlabelled cases.unlabelled)).
  - reflexivity.
  - discriminate.
Defined.

Lemma band_pixels_add_bands (src dst : list Band) :
  map band_data (fold_left add_band src dst)
  = (map band_data dst ++ map band_data src)%list.
Proof.
  revert dst. induction src as [|b src IH]; intros dst; simpl.
  - rewrite app_nil_r. reflexivity.
  - rewrite IH. unfold add_band. rewrite List.map_app, <- app_assoc. reflexivity.
Qed.

Lemma iterate_acc_pixels (l : list Image) (acc : Image) :
  exists out,
    iterate (fun img prev =>
        required "Image.addBands" "dstImg" prev
          (fun prev => Value (addBands prev img))) (Value acc) l
    = Value out
    /\ band_pixels out = (band_pixels acc ++ flat_map band_pixels l)%list
    /\ props out = props acc.
Proof.
  revert acc. induction l as [|i l IH]; intros acc.
  - exists acc. simpl. rewrite app_nil_r. repeat split.
  - unfold iterate in *. simpl.
    destruct (IH (addBands acc i)) as (out & Hout & Hpix & Hprops).
    exists out. split; [exact Hout |]. rewrite Hpix, Hprops.
    unfold band_pixels, addBands. cbn [bands props].
    rewrite band_pixels_add_bands, <- app_assoc. split; reflexivity.
Qed.

Lemma renamed_all (ts : ImageCollection) :
  List.Forall labelled ts ->
  exists renamed,
    map_computed rename_with_date ts = Value renamed
    /\ map band_pixels renamed = map band_pixels ts
    /\ map props renamed = map props ts.
Proof.
  induction 1 as [|i ts (d & Hd) _ IH].
  - exists []. repeat split.
  - destruct IH as (renamed & Hr & Hpix & Hprops).
    destruct (rename_with_date_labelled i d Hd) as (i' & Hi & _ & Hp & Hpr).
    exists (i' :: renamed). simpl. rewrite Hi, Hr. simpl.
    rewrite Hp, Hpix, Hpr, Hprops. repeat split.
Qed.

Lemma flat_map_via_map {A B C : Type} (f : A -> list C) (g : B -> list C)
    (l : list A) (l' : list B) :
  map f l = map g l' -> flat_map f l = flat_map g l'.
Proof.
  revert l'. induction l as [|a l IH]; intros [|b l'] H; try discriminate;
    [reflexivity |].
  simpl in *. injection H as Ha Hl. rewrite Ha, (IH l' Hl). reflexivity.
Qed.

(** X3. On a non-empty series of labelled composites the cube exists;
    its pixels are those of the first composite followed by those of
    every composite in order, the first one included again, and its
    metadata are those of the first composite. *)
Theorem assemble_cube_pixels (first : Image) (rest : list Image) :
  List.Forall labelled (first :: rest) ->
  exists cube,
    assemble_cube (first :: rest) = Value cube
    /\ band_pixels cube
       = (band_pixels first ++ flat_map band_pixels (first :: rest))%list
    /\ props cube = props first.
Proof.
  intros Hall. destruct (renamed_all _ Hall) as (renamed & Hr & Hpix & Hprops).
  unfold assemble_cube. rewrite Hr. cbn [required].
  destruct renamed as [|r renamed]; [discriminate |].
  cbn [ee.first]. injection Hpix as Hp1 Hp. injection Hprops as Hq1 Hq.
  destruct (iterate_acc_pixels (r :: renamed) r) as (out & Hout & Ho & Hop).
  exists out. split; [exact Hout |]. rewrite Ho, Hop, Hp1, Hq1.
  split; [| reflexivity]. f_equal. cbn [flat_map]. rewrite Hp1. f_equal.
  apply flat_map_via_map. exact Hp.
Qed.

Lemma assemble_cube_pixels_witness :
  fmap bandNames (assemble_cube cases.two_months)
  = Value ["NDVI_2019-05"; "EVI_2019-05"; "NDVI_2019-05_1"; "EVI_2019-05_1";
           "NDVI_2019-06"; "EVI_2019-06"].
Proof.
  destruct (assemble_cube_pixels (cases.two_band_month "2019-05")
              [cases.two_band_month "2019-06"]) as (cube & Hc & _).
  - repeat constructor; eexists; reflexivity.
  - vm_compute. reflexivity.
Defined.

End CubeMore.

Section MonthlyMore.
Import date cube timeseries indices composer.

Lemma sort_not_empty (k : string) (asc : bool) (x : Image) (l : list Image) :
  sort k asc (x :: l) <> [].
Proof.
  unfold sort. cbn [fold_right].
  destruct (fold_right (insert_sorted k asc) [] l) as [|y l'].
  - discriminate.
  - cbn [insert_sorted]. destruct (if asc then _ else _); discriminate.
Qed.

(** X4. The monthly mosaics of an empty series, and of a series whose
    first image has no acquisition time, are an evaluation error. *)
Theorem safe_monthly_mosaics_failures (ts : ImageCollection) :
  (ts = [] -> exists msg, safe_monthly_mosaics ts = Failure msg)
  /\ (forall i rest, ts = i :: rest -> time_start i = None ->
      exists msg, safe_monthly_mosaics ts = Failure msg).
Proof.
  split.
  - intros ->. eexists. reflexivity.
  - intros i rest -> Hi. unfold safe_monthly_mosaics. cbn [ee.first required].
    pose proof (sort_not_empty "system:time_start" false i rest) as Hs.
    destruct (sort "system:time_start" false (i :: rest)) as [|y l];
      [contradiction |].
    cbn [ee.first required]. unfold image_date. rewrite Hi.
    eexists. reflexivity.
Qed.

Lemma safe_monthly_mosaics_failures_witness :
  exists msg,
    safe_monthly_mosaics [cases.undated; data.scene (of_civil 2018 1 5)]
    = Failure msg.
Proof.
  apply (proj2 (safe_monthly_mosaics_failures
                  [cases.undated; data.scene (of_civil 2018 1 5)])
           cases.undated [data.scene (of_civil 2018 1 5)]); reflexivity.
Defined.

Lemma by_month_labelled (ts : ImageCollection) (d : Z) :
  labelled (by_month ts d).
Proof.
  unfold labelled, by_month, set. cbn [props].
  eexists. apply lookup_insert_eq.
Qed.

(** X5. The monthly mosaics of a non-empty series of timestamped scenes
    can always be assembled: there is at least one composite, every
    composite carries its month label, and [assemble_cube] gives an
    image. *)
Theorem monthly_series_assembles (ts : ImageCollection) (t0 : Z)
    (times : list Z) :
  map time_start ts = map Some (t0 :: times) ->
  exists monthly cube,
    safe_monthly_mosaics ts = Value monthly
    /\ monthly <> []
    /\ List.Forall labelled monthly
    /\ assemble_cube monthly = Value cube.
Proof.
  intros Hmap. rewrite (safe_monthly_mosaics_from_first ts t0 times Hmap).
  set (n := (latest t0 times - t0) ÷ MS_PER_MONTH).
  assert (Hn : 0 <= n).
  { subst n. apply Z.quot_pos; [| unfold MS_PER_MONTH; lia].
    pose proof (latest_ge_first t0 times). lia. }
  set (monthly := map (fun i => by_month ts (advance_month t0 i)) (List_sequence 0 n)).
  assert (Hlab : List.Forall labelled monthly).
  { apply List.Forall_forall. intros m Hm. apply in_map_iff in Hm.
    destruct Hm as (i & <- & _). apply by_month_labelled. }
  assert (Hlen : List.length monthly = S (Z.to_nat n)).
  { subst monthly. rewrite length_map, length_List_sequence. lia. }
  destruct monthly as [|m0 monthly'] eqn:Hm; [discriminate |].
  destruct (assemble_cube_pixels m0 monthly' Hlab) as (cube & Hcube & _).
  exists (m0 :: monthly'), cube. repeat split; try assumption. discriminate.
Qed.

Lemma monthly_series_assembles_witness :
  exists monthly cube,
    safe_monthly_mosaics data.every_other_month = Value monthly
    /\ assemble_cube monthly = Value cube.
Proof.
  destruct (monthly_series_assembles data.every_other_month
              (of_civil 2018 1 5)
              (map (fun m => of_civil 2018 m 5) [3; 5; 7; 9; 11]))
    as (monthly & cube & Hm & _ & _ & Hc).
  - vm_compute. reflexivity.
  - exists monthly, cube. split; assumption.
Defined.

(** The shape of the result of [apply_indices] on an image with the
    canonical bands. *)
Lemma apply_indices_shape (img : Image) (names : option (list (option string))) :
  has_bands img CANONICAL = true ->
  exists more flag,
    apply_indices img names
    = Value (mkImage (bands img ++ more)
               (<["has_20m_indices" := PBool flag]> (props img))).
Proof.
  intros Hbands. unfold apply_indices.
  destruct (fold_add_index img (normalise names) Hbands []) as (more & Hfold & _).
  rewrite app_nil_r in Hfold. destruct img as [bs ps].
  cbn [bands props] in *. rewrite Hfold. cbn [required set bands props].
  eexists. eexists. reflexivity.
Qed.

Lemma per_image_harmonised (names : option (list (option string))) (img : Image)
    (t : Z) :
  has_bands img CANONICAL = true -> time_start img = Some t ->
  exists img',
    _per_image names img = Value img'
    /\ time_start img' = Some t
    /\ props img' !! "date" = Some (PStr (format_YYYY_MM_dd t))
    /\ (exists more, bands img' = (bands img ++ more)%list).
Proof.
  intros Hbands Ht. unfold _per_image.
  destruct (apply_indices_shape img names Hbands) as (more & flag & ->).
  cbn [required]. unfold image_date. rewrite Ht. cbn [required].
  eexists. split; [reflexivity |]. unfold time_start, num_prop, set in *.
  cbn [props bands].
  rewrite lookup_insert_ne by discriminate.
  rewrite lookup_insert_ne by discriminate.
  split; [exact Ht |]. split; [apply lookup_insert_eq |].
  exists more. reflexivity.
Qed.

(** X6. Composing the time series of harmonised scenes keeps the number,
    the order and the acquisition times of the images, keeps the bands of
    each image in front of the index bands, and stamps each image with
    its acquisition day; so the monthly mosaics of the composed series
    are there, one per month window of the collection. *)
Theorem compose_time_series_harmonised (col : ImageCollection)
    (names : option (list (option string))) :
  List.Forall harmonised col ->
  exists ts,
    compose_time_series col names = Value ts
    /\ map time_start ts = map time_start col
    /\ Forall2 (fun img' img =>
                  (exists more, bands img' = (bands img ++ more)%list)
                  /\ exists t, time_start img = Some t
                               /\ props img' !! "date"
                                  = Some (PStr (format_YYYY_MM_dd t)))
         ts col
    /\ (col <> [] ->
        exists monthly monthly',
          safe_monthly_mosaics ts = Value monthly
          /\ safe_monthly_mosaics col = Value monthly'
          /\ month_labels monthly = month_labels monthly').
Proof.
  intros Hall.
  assert (H : exists ts,
             compose_time_series col names = Value ts
             /\ map time_start ts = map time_start col
             /\ Forall2 (fun img' img =>
                  (exists more, bands img' = (bands img ++ more)%list)
                  /\ exists t, time_start img = Some t
                               /\ props img' !! "date"
                                  = Some (PStr (format_YYYY_MM_dd t)))
                  ts col).
  { induction Hall as [|img col [Hb (t & Ht)] _ IH].
    - exists []. repeat split. constructor.
    - destruct IH as (ts & Hts & Htimes & Hrel).
      destruct (per_image_harmonised names img t Hb Ht)
        as (img' & Himg & Ht' & Hd & Hmore).
      exists (img' :: ts). unfold compose_time_series in *. cbn [map_computed].
      rewrite Himg, Hts. cbn [required map]. rewrite Ht', Ht, Htimes.
      split; [reflexivity |]. split; [reflexivity |].
      constructor; [| exact Hrel]. split; [exact Hmore |].
      exists t. split; assumption. }
  destruct H as (ts & Hts & Htimes & Hrel).
  exists ts. split; [exact Hts |]. split; [exact Htimes |].
  split; [exact Hrel |]. intros Hne.
  assert (Hstamps : exists t0 times, map time_start col = map Some (t0 :: times)).
  { clear -Hall Hne. induction Hall as [|img col [_ (t & Ht)] Hall IH];
      [contradiction |].
    destruct col as [|img2 col].
    - exists t, []. simpl. rewrite Ht. reflexivity.
    - destruct IH as (t1 & times & Hm); [discriminate |].
      exists t, (t1 :: times). cbn [map] in *. rewrite Ht, Hm. reflexivity. }
  destruct Hstamps as (t0 & times & Hm).
  rewrite (safe_monthly_mosaics_from_first col t0 times Hm).
  rewrite <- Htimes in Hm.
  rewrite (safe_monthly_mosaics_from_first ts t0 times Hm).
  eexists. eexists. split; [reflexivity |]. split; [reflexivity |].
  unfold month_labels. rewrite !map_map. apply map_ext. intros i.
  unfold by_month, set. cbn [props]. rewrite !lookup_insert_eq. reflexivity.
Qed.

Lemma compose_time_series_harmonised_witness :
  exists ts,
    compose_time_series cases.s2_series (Some [Some "ndvi"; Some "NBR"]) = Value ts
    /\ map time_start ts
       = [Some (of_civil 2018 1 5); Some (of_civil 2018 2 20);
          Some (of_civil 2018 4 2)].
Proof.
  destruct (compose_time_series_harmonised cases.s2_series
              (Some [Some "ndvi"; Some "NBR"])) as (ts & Hts & Htimes & _).
  - repeat constructor; try (eexists; reflexivity).
  - exists ts. split; [exact Hts |]. rewrite Htimes. reflexivity.
Defined.

End MonthlyMore.

(** ** indices.py *)

Section IndicesMore.
Import indices cases_indices.

(** X7. A normalised name selects a registry entry exactly when it is
    the upper-cased name of that entry: each of the fourteen indices can
    be asked for, in any letter case, and nothing else can. *)
Theorem recognised_iff (n key : string) (f : formula) :
  recognised n = Some (key, f) <-> In (key, f) INDEX_FUNCS /\ n = upper key.
Proof.
  split.
  - intros H. split; [exact (recognised_In _ _ _ H) |].
    unfold recognised in H. destruct (canon !! n) as [k |] eqn:Hc; [| discriminate].
    apply canon_entries in Hc. destruct k as [|c k]; [discriminate |].
    destruct (assoc (String c k) INDEX_FUNCS); [| discriminate].
    cbn [option_map] in H. injection H as <- _.
    apply in_map_iff in Hc. destruct Hc as (k0 & Heq & _).
    injection Heq as <- <-. reflexivity.
  - intros [Hin ->]. simpl in Hin.
    repeat (destruct Hin as [Hin | Hin];
            [injection Hin as <- <-; vm_compute; reflexivity |]).
    contradiction.
Qed.

Lemma recognised_iff_witness :
  known (Some "  cire ") = true /\ known (Some "NDVI2") = false.
Proof.
  split.
  - unfold known.
    rewrite (proj2 (recognised_iff (upper (strip "  cire ")) "CIre"
                      (formula_of "CIre"))); [reflexivity |].
    split; [vm_compute; tauto | vm_compute; reflexivity].
  - vm_compute. reflexivity.
Defined.

(** X8. The flag [has_20m_indices] computed by [apply_indices] is true
    exactly when one of the bands it appends is NDRE, CIre, NDMI, NBR or
    MNDWI. *)
Theorem has_20m_iff_band_added (names : option (list (option string))) :
  existsb (fun n => has_name INDICES_REQUIRE_20M n) (normalise names) = true
  <-> exists key f, In (key, f) (requested names)
                    /\ In key ["NDRE"; "CIre"; "NDMI"; "NBR"; "MNDWI"].
Proof.
  rewrite existsb_exists. unfold requested. split.
  - intros (n & Hn & H20). apply has_name_true in H20.
    assert (Hrec : exists key f, recognised n = Some (key, f)
                     /\ In key ["NDRE"; "CIre"; "NDMI"; "NBR"; "MNDWI"]).
    { simpl in H20.
      repeat (destruct H20 as [<- | H20];
              [eexists; eexists; split;
               [vm_compute; reflexivity | simpl; tauto] |]).
      contradiction. }
    destruct Hrec as (key & f & Hrec & Hkey). exists key, f.
    split; [| exact Hkey].
    apply list_elem_of_In, list_elem_of_omap. exists n.
    split; [apply list_elem_of_In; exact Hn | exact Hrec].
  - intros (key & f & Hin & Hkey).
    apply list_elem_of_In, list_elem_of_omap in Hin.
    destruct Hin as (n & Hn & Hrec). apply list_elem_of_In in Hn.
    apply recognised_iff in Hrec. destruct Hrec as [_ ->].
    exists (upper key). split; [exact Hn |].
    simpl in Hkey.
    repeat (destruct Hkey as [<- | Hkey]; [vm_compute; reflexivity |]).
    contradiction.
Qed.

Lemma Qeq_bool_positive (q : Q) : (0 < q)%Q -> Qeq_bool q 0 = false.
Proof.
  intros Hq. destruct (Qeq_bool q 0) eqn:E; [| reflexivity].
  apply Qeq_bool_eq in E. rewrite E in Hq. discriminate.
Qed.

(** X9. Where NIR and RED are not negative, SAVI, EVI2 and MSAVI2 never
    divide by zero, although they do not use [_safe_ratio]. *)
Theorem soil_adjusted_indices_divide_safely (sqrt : Q -> Q) (px : string -> Q) :
  (0 <= px "NIR")%Q -> (0 <= px "RED")%Q ->
  divides_by_zero sqrt px (formula_of "SAVI") = false
  /\ divides_by_zero sqrt px (formula_of "EVI2") = false
  /\ divides_by_zero sqrt px (formula_of "MSAVI2") = false.
Proof.
  intros Hn Hr. unfold divides_by_zero.
  change (formula_of "SAVI") with
    (Multiply
       (Divide (Subtract (Sel "NIR") (Sel "RED"))
          (Add (Add (Sel "NIR") (Sel "RED")) (Const (1 # 2))))
       (Add (Const 1) (Const (1 # 2)))).
  change (formula_of "EVI2") with
    (Multiply (Const (5 # 2))
       (Divide (Subtract (Sel "NIR") (Sel "RED"))
          (Add (Add (Sel "NIR") (Multiply (Const (12 # 5)) (Sel "RED")))
             (Const 1)))).
  change (formula_of "MSAVI2") with
    (Divide
       (Subtract
          (Add (Multiply (Const 2) (Sel "NIR")) (Const 1))
          (Sqrt (Subtract
                   (Pow (Add (Multiply (Const 2) (Sel "NIR")) (Const 1)) 2)
                   (Multiply (Const 8) (Subtract (Sel "NIR") (Sel "RED"))))))
       (Const 2)).
  cbn [divisors eval app existsb]. rewrite !orb_false_r.
  split; [apply Qeq_bool_positive; lra |].
  split; [apply Qeq_bool_positive; lra | reflexivity].
Qed.

Lemma soil_adjusted_indices_divide_safely_witness :
  divides_by_zero (fun x => x) cases_indices.leaf_pixel (formula_of "SAVI") = false.
Proof.
  apply (soil_adjusted_indices_divide_safely (fun x => x) cases_indices.leaf_pixel);
    vm_compute; discriminate.
Defined.

(** X10. A normalised-difference index of the registry lies between -1
    and 1 where its two bands are not negative and not both zero. *)
Theorem normalised_difference_bounded (sqrt : Q -> Q) (px : string -> Q)
    (key b1 b2 : string) :
  assoc key INDEX_FUNCS = Some (NormalizedDifference b1 b2) ->
  (0 <= px b1)%Q -> (0 <= px b2)%Q -> ~ (px b1 + px b2 == 0)%Q ->
  (- (1) <= eval sqrt px (formula_of key) <= 1)%Q.
Proof.
  intros Hkey H1 H2 Hne. unfold formula_of. rewrite Hkey. cbn [default eval].
  assert (Hpos : (0 < px b1 + px b2)%Q).
  { destruct (Qlt_le_dec 0 (px b1 + px b2)) as [H | H]; [exact H |].
    exfalso. apply Hne. lra. }
  split.
  - apply Qle_shift_div_l; [exact Hpos | lra].
  - apply Qle_shift_div_r; [exact Hpos | lra].
Qed.

Lemma normalised_difference_bounded_witness :
  (- (1) <= eval (fun x => x) cases_indices.leaf_pixel (formula_of "NDVI") <= 1)%Q.
Proof.
  apply (normalised_difference_bounded (fun x => x) cases_indices.leaf_pixel
           "NDVI" "NIR" "RED").
  - reflexivity.
  - vm_compute. discriminate.
  - vm_compute. discriminate.
  - vm_compute. discriminate.
Defined.

Lemma select_missing (img : Image) (l : list string) (b : string) :
  In b l -> has_name (bandNames img) b = false ->
  failed (map_computed (select img) l).
Proof.
  intros Hin Hmiss. induction l as [|x l IH]; [contradiction |].
  cbn [map_computed]. unfold select at 1.
  destruct (band_of img x) as [p |] eqn:Hx.
  - cbn [required]. destruct Hin as [-> | Hin].
    + exfalso. unfold band_of in Hx.
      destruct (List.find _ (bands img)) as [bd |] eqn:Hf; [| discriminate].
      apply find_some in Hf. destruct Hf as [Hf Heq].
      apply String.eqb_eq in Heq. subst b.
      assert (has_name (bandNames img) (band_name bd) = true).
      { apply has_name_true. unfold bandNames. apply in_map. exact Hf. }
      congruence.
    + destruct (IH Hin) as (msg & ->). exists msg. reflexivity.
  - eexists. reflexivity.
Qed.

Lemma add_index_failed (img : Image) (n msg : string) :
  add_index img (Failure msg) n = Failure msg.
Proof.
  rewrite add_index_recognised. destruct (recognised n) as [[key f] |]; reflexivity.
Qed.

Lemma fold_add_index_failed (img : Image) (l : list string) (msg : string) :
  fold_left (add_index img) l (Failure msg) = Failure msg.
Proof.
  induction l as [|n l IH]; [reflexivity |].
  cbn [fold_left]. rewrite add_index_failed. exact IH.
Qed.

Lemma add_index_not_null (img : Image) (n : string) (out : Image) :
  add_index img (Value out) n <> Null.
Proof.
  rewrite add_index_recognised. destruct (recognised n) as [[key f] |];
    [| discriminate].
  cbn [required]. unfold index_image.
  destruct (map_computed (select img) (remove_dups (selections f)));
    cbn [required]; discriminate.
Qed.

(** X11. When a requested index is in the registry and the image lacks
    one of the bands its formula selects, [apply_indices] is an
    evaluation error, whatever else is requested. *)
Theorem apply_indices_missing_band (img : Image)
    (names : option (list (option string))) (n key b : string) (f : formula) :
  In n (normalise names) ->
  recognised n = Some (key, f) ->
  In b (selections f) ->
  has_name (bandNames img) b = false ->
  exists msg, apply_indices img names = Failure msg.
Proof.
  intros Hn Hrec Hb Hmiss. unfold apply_indices.
  assert (Hfold : forall l acc, In n l ->
            failed (fold_left (add_index img) l (Value acc))).
  { induction l as [|x l IH]; intros acc Hin; [contradiction |].
    cbn [fold_left].
    destruct (add_index img (Value acc) x) as [acc' | | msg] eqn:Hx.
    - destruct Hin as [-> | Hin]; [| exact (IH acc' Hin)].
      exfalso. rewrite add_index_recognised, Hrec in Hx. cbn [required] in Hx.
      unfold index_image in Hx.
      destruct (select_missing img (remove_dups (selections f)) b) as (m & Hm).
      + apply list_elem_of_In, elem_of_remove_dups, list_elem_of_In. exact Hb.
      + exact Hmiss.
      + rewrite Hm in Hx. discriminate.
    - exfalso. exact (add_index_not_null img x acc Hx).
    - exists msg. apply fold_add_index_failed. }
  destruct (Hfold (normalise names) img Hn) as (msg & ->).
  exists msg. reflexivity.
Qed.

Lemma apply_indices_missing_band_witness :
  exists msg,
    apply_indices cases_indices.visible_only (Some [Some "bogus"; Some "evi"])
    = Failure msg.
Proof.
  apply (apply_indices_missing_band cases_indices.visible_only
           (Some [Some "bogus"; Some "evi"]) "EVI" "EVI" "NIR" (formula_of "EVI")).
  - vm_compute. tauto.
  - vm_compute. reflexivity.
  - vm_compute. tauto.
  - vm_compute. reflexivity.
Defined.

End IndicesMore.

(** ** silo.py *)

Section SiloMore.
Import py silo cases_silo.

Lemma call_api_from_uses (fuel : nat) (k retry_max : Z) (last : option Response)
    (net0 net1 : network) (r : result Response) :
  _call_api_from fuel k retry_max last net0 = (r, net1) ->
  exists used, net0 = (used ++ net1)%list /\ (List.length used <= fuel)%nat.
Proof.
  revert k last net0. induction fuel as [|fuel IH]; intros k last net0; simpl.
  - intros [= _ <-]. exists []. split; [reflexivity | simpl; lia].
  - destruct net0 as [|[a | e] net0].
    + intros [= _ <-]. exists []. split; [reflexivity | simpl; lia].
    + destruct (status_code a =? 200).
      * intros [= _ <-]. exists [Answer a]. split; [reflexivity | simpl; lia].
      * destruct (if k =? retry_max then raise_for_status a else Return tt).
        -- intros H. destruct (IH _ _ _ H) as (used & -> & Hlen).
           exists (Answer a :: used). split; [reflexivity | simpl; lia].
        -- intros [= _ <-]. exists [Answer a]. split; [reflexivity | simpl; lia].
    + intros [= _ <-]. exists [Broken e]. split; [reflexivity | simpl; lia].
Qed.

(** X12. [_call_api] takes the answers of the network in order and never
    more than [retry_max + 1] of them; with a negative [retry_max] it
    asks nothing and fails on its unset result. *)
Theorem call_api_attempts (retry_max : Z) (net0 : network) :
  (forall r net1, _call_api retry_max net0 = (r, net1) ->
     exists used, net0 = (used ++ net1)%list
                  /\ Z.of_nat (List.length used) <= Z.max 0 (retry_max + 1))
  /\ (retry_max < 0 ->
      _call_api retry_max net0 = (Raise (UnboundLocalError "r"), net0)).
Proof.
  split.
  - intros r net1 H. unfold _call_api in H.
    destruct (call_api_from_uses _ _ _ _ _ _ _ H) as (used & Hused & Hlen).
    exists used. split; [exact Hused | lia].
  - intros Hneg. unfold _call_api.
    replace (Z.to_nat (retry_max + 1)) with 0%nat by lia. reflexivity.
Qed.

Lemma call_api_from_first_200 (before : list http) (r : Response)
    (rest : network) (fuel : nat) (k retry_max : Z) (last : option Response) :
  List.Forall refused before -> status_code r = 200 ->
  k + Z.of_nat (List.length before) <= retry_max ->
  (List.length before < fuel)%nat ->
  _call_api_from fuel k retry_max last (before ++ Answer r :: rest)%list
  = (Return r, rest).
Proof.
  intros Hbefore H200. revert fuel k last.
  induction Hbefore as [|h before Hh _ IH]; intros fuel k last Hk Hfuel.
  - destruct fuel as [|fuel]; [simpl in Hfuel; lia |].
    simpl. rewrite H200. reflexivity.
  - destruct fuel as [|fuel]; [simpl in Hfuel; lia |].
    destruct h as [a | e]; [| contradiction]. simpl in Hh, Hk, Hfuel.
    cbn [app _call_api_from].
    destruct (Z.eqb_spec (status_code a) 200) as [Heq | _]; [contradiction |].
    destruct (Z.eqb_spec k retry_max) as [Hkr | _]; [lia |].
    apply IH; lia.
Qed.

(** X13. When the answer with status 200 comes within the first
    [retry_max + 1] answers and the ones before it are answers with other
    statuses, [_call_api] returns it and leaves the rest of the network
    untouched: an error status before the last attempt is retried, not
    raised. *)
Theorem call_api_first_200 (retry_max : Z) (before : list http) (r : Response)
    (rest : network) :
  List.Forall refused before -> status_code r = 200 ->
  Z.of_nat (List.length before) <= retry_max ->
  _call_api retry_max (before ++ Answer r :: rest)%list = (Return r, rest).
Proof.
  intros Hbefore H200 Hlen. unfold _call_api.
  apply call_api_from_first_200; try assumption; lia.
Qed.

Lemma call_api_first_200_witness :
  _call_api 2 [Answer (status 503); Answer (status 404); Answer (status 200);
               Answer (status 500)]
  = (Return (status 200), [Answer (status 500)]).
Proof.
  apply (call_api_first_200 2 [Answer (status 503); Answer (status 404)]
           (status 200) [Answer (status 500)]).
  - repeat constructor; simpl; discriminate.
  - reflexivity.
  - simpl. lia.
Defined.

Lemma call_api_from_answer (fuel : nat) (k retry_max : Z)
    (last : option Response) (a : Response) (net0 : network) :
  _call_api_from (S fuel) k retry_max last (Answer a :: net0)
  = if status_code a =? 200 then (Return a, net0)
    else match (if k =? retry_max then raise_for_status a else Return tt) with
         | Raise e => (Raise e, net0)
         | Return _ => _call_api_from fuel (k + 1) retry_max (Some a) net0
         end.
Proof. reflexivity. Qed.

Lemma call_api_from_exhausted (before : list http) (r : Response)
    (rest : network) (k retry_max : Z) (last : option Response) :
  List.Forall refused before -> status_code r <> 200 ->
  k + Z.of_nat (List.length before) = retry_max ->
  _call_api_from (S (List.length before)) k retry_max last
    (before ++ Answer r :: rest)%list
  = (match raise_for_status r with
     | Raise e => Raise e
     | Return _ => Return r
     end, rest).
Proof.
  intros Hbefore Hr. revert k last.
  induction Hbefore as [|h before Hh _ IH]; intros k last Hk.
  - simpl in Hk. cbn [List.length app]. rewrite call_api_from_answer.
    destruct (Z.eqb_spec (status_code r) 200) as [Heq | _]; [contradiction |].
    destruct (Z.eqb_spec k retry_max) as [_ | Hne]; [| lia].
    destruct (raise_for_status r); reflexivity.
  - destruct h as [a | e]; [| contradiction]. simpl in Hh.
    cbn [List.length] in Hk |- *. cbn [app]. rewrite call_api_from_answer.
    destruct (Z.eqb_spec (status_code a) 200) as [Heq | _]; [contradiction |].
    destruct (Z.eqb_spec k retry_max) as [Hkr | _]; [lia |].
    apply IH. lia.
Qed.

(** X14. When the first [retry_max + 1] answers all carry a status other
    than 200, [_call_api] stops at the last of them: it raises
    [HTTPError] with that status when it is a 4xx or 5xx, and otherwise
    returns that answer as if it had succeeded. *)
Theorem call_api_exhausted (retry_max : Z) (before : list http) (r : Response)
    (rest : network) :
  List.Forall refused before -> status_code r <> 200 ->
  Z.of_nat (List.length before) = retry_max ->
  _call_api retry_max (before ++ Answer r :: rest)%list
  = (if (400 <=? status_code r) && (status_code r <? 600)
     then Raise (HTTPError (status_code r))
     else Return r, rest).
Proof.
  intros Hbefore Hr Hlen. unfold _call_api.
  replace (Z.to_nat (retry_max + 1)) with (S (List.length before)) by lia.
  rewrite (call_api_from_exhausted before r rest 0 retry_max None Hbefore Hr)
    by lia.
  unfold raise_for_status.
  destruct ((400 <=? status_code r) && (status_code r <? 600)); reflexivity.
Qed.

Lemma call_api_exhausted_witness :
  _call_api 1 [Answer (status 503); Answer (status 204); Answer (status 200)]
  = (Return (status 204), [Answer (status 200)])
  /\ _call_api 1 [Answer (status 503); Answer (status 502); Answer (status 200)]
     = (Raise (HTTPError 502), [Answer (status 200)]).
Proof.
  split.
  - apply (call_api_exhausted 1 [Answer (status 503)] (status 204)
             [Answer (status 200)]).
    + repeat constructor; simpl; discriminate.
    + simpl. discriminate.
    + reflexivity.
  - apply (call_api_exhausted 1 [Answer (status 503)] (status 502)
             [Answer (status 200)]).
    + repeat constructor; simpl; discriminate.
    + simpl. discriminate.
    + reflexivity.
Defined.

Lemma call_api_from_broken (before : list http) (e : exn) (rest : network)
    (fuel : nat) (k retry_max : Z) (last : option Response) :
  List.Forall refused before ->
  k + Z.of_nat (List.length before) <= retry_max ->
  (List.length before < fuel)%nat ->
  _call_api_from fuel k retry_max last (before ++ Broken e :: rest)%list
  = (Raise e, rest).
Proof.
  intros Hbefore. revert fuel k last.
  induction Hbefore as [|h before Hh _ IH]; intros fuel k last Hk Hfuel.
  - destruct fuel as [|fuel]; [simpl in Hfuel; lia |]. reflexivity.
  - destruct fuel as [|fuel]; [simpl in Hfuel; lia |].
    destruct h as [a | e']; [| contradiction]. simpl in Hh, Hk, Hfuel.
    cbn [app _call_api_from].
    destruct (Z.eqb_spec (status_code a) 200) as [Heq | _]; [contradiction |].
    destruct (Z.eqb_spec k retry_max) as [Hkr | _]; [lia |].
    apply IH; lia.
Qed.

(** X15. An exception of [requests.get] itself (no answer at all) is
    never retried: at whatever attempt it happens, [_call_api] raises it
    at once. *)
Theorem call_api_broken_connection (retry_max : Z) (before : list http)
    (e : exn) (rest : network) :
  List.Forall refused before ->
  Z.of_nat (List.length before) <= retry_max ->
  _call_api retry_max (before ++ Broken e :: rest)%list = (Raise e, rest).
Proof.
  intros Hbefore Hlen. unfold _call_api.
  apply call_api_from_broken; try assumption; lia.
Qed.

Lemma call_api_broken_connection_witness :
  _call_api 3 [Answer (status 500); Broken (ConnectionError "reset");
               Answer (status 200)]
  = (Raise (ConnectionError "reset"), [Answer (status 200)]).
Proof.
  apply (call_api_broken_connection 3 [Answer (status 500)]
           (ConnectionError "reset") [Answer (status 200)]).
  - repeat constructor; simpl; discriminate.
  - simpl. lia.
Defined.

End SiloMore.

Section SiloRun.
Import py silo cases_silo cases_silo2.

Lemma call_api_attempts_witness :
  _call_api (-1) [Answer (status 200)]
  = (Raise (UnboundLocalError "r"), [Answer (status 200)]).
Proof.
  apply (proj2 (call_api_attempts (-1) [Answer (status 200)])). lia.
Defined.

Lemma filter_nil_iff {A : Type} (f : A -> bool) (l : list A) :
  List.filter f l = [] <-> List.Forall (fun x => f x = false) l.
Proof.
  induction l as [|x l IH]; simpl.
  - split; [constructor | reflexivity].
  - destruct (f x) eqn:Hx.
    + split; [discriminate |]. intros H. inversion H; congruence.
    + rewrite IH. split; [intros H; constructor; assumption |].
      intros H. inversion H; assumption.
Qed.

Lemma length_append (s1 s2 : string) :
  String.length (s1 ++ s2) = (String.length s1 + String.length s2)%nat.
Proof. induction s1 as [|c s1 IH]; simpl; [reflexivity | now rewrite IH]. Qed.

Lemma length_concat_codes (l : list string) :
  List.Forall (fun v => In v VALID_CODES) l ->
  String.length (String.concat "" l) = List.length l.
Proof.
  induction 1 as [|v l Hv Hl IH]; [reflexivity |].
  assert (Hone : String.length v = 1%nat).
  { simpl in Hv.
    repeat (destruct Hv as [<- | Hv]; [reflexivity |]). contradiction. }
  destruct l as [|w l].
  - simpl. exact Hone.
  - cbn [String.concat] in *. rewrite !length_append, IH, Hone.
    reflexivity.
Qed.

(** X16. [_validate_vars] accepts a list of variables exactly when every
    one of them, trimmed and upper-cased, is one of the eighteen SILO
    letters; the comment it returns is those letters in request order,
    one per variable.  Otherwise it raises [ValueError]. *)
Theorem validate_vars_outcome (vars : list string) :
  match _validate_vars vars with
  | Return comment =>
      List.Forall valid_code vars
      /\ comment
         = String.concat "" (map (fun v => indices.upper (indices.strip v)) vars)
      /\ String.length comment = List.length vars
  | Raise e =>
      ~ List.Forall valid_code vars
      /\ exists msg, e = ValueError msg
  end.
Proof.
  unfold _validate_vars.
  set (up := map (fun v => indices.upper (indices.strip v)) vars).
  assert (Hiff : List.filter (fun v => negb (ee.has_name VALID_CODES v)) up = []
                 <-> List.Forall valid_code vars).
  { rewrite filter_nil_iff. subst up. rewrite List.Forall_map.
    split; intros H; eapply List.Forall_impl; try exact H; intros v Hv;
      unfold valid_code in *.
    - apply has_name_true. apply negb_false_iff. exact Hv.
    - apply negb_false_iff. apply has_name_true. exact Hv. }
  destruct (List.filter (fun v => negb (ee.has_name VALID_CODES v)) up) as [|b bad].
  - assert (Hall : List.Forall valid_code vars) by (apply Hiff; reflexivity).
    split; [exact Hall |]. split; [reflexivity |].
    rewrite length_concat_codes.
    + subst up. apply length_map.
    + subst up. rewrite List.Forall_map. exact Hall.
  - split; [| eexists; reflexivity].
    intros Hall. apply Hiff in Hall. discriminate.
Qed.

(** The loop logs and asks once for each point. *)
Lemma loop_counts (cfg : SILOPointsConfig) (comment : string)
    (pts : list point) (st st' : progress) :
  loop cfg comment st pts = Return st' ->
  List.length (log st') = (List.length (log st) + List.length pts)%nat
  /\ List.length (asked st') = (List.length (asked st) + List.length pts)%nat.
Proof.
  revert st. induction pts as [|p pts IH]; intros st Hloop.
  - injection Hloop as <-. simpl. split; lia.
  - cbn [loop] in Hloop. unfold step in Hloop.
    destruct (point_request cfg comment p) as [req | e]; [| discriminate].
    destruct (point_tag cfg p) as [tag | e]; [| discriminate].
    cbn [bind] in Hloop.
    destruct (fetch cfg p (snd req) tag (net st)) as [[df | e] net1];
      cbn [bind] in Hloop; apply IH in Hloop; cbn [log asked] in Hloop;
      rewrite !length_app in Hloop; simpl in *; split; lia.
Qed.

(** X17. A failed point never ends the run of the sampler: when the run
    returns, every loaded point has been asked for once and has one line
    in the log, whether its fetch succeeded or not. *)
Theorem silo_every_point_is_tried
    (read_file : string -> result PointsFile) (net0 : network)
    (cfg : SILOPointsConfig) (pts : list point) (o : outcome) :
  mode cfg = "datadrill" \/ mode cfg = "station" ->
  _load_points read_file cfg = Return pts ->
  silo_points_quick read_file net0 cfg = Return o ->
  List.length (messages o) = List.length pts
  /\ List.length (requests o) = List.length pts.
Proof.
  intros Hmode Hload Hrun. unfold silo_points_quick in Hrun.
  destruct (String.eqb (username cfg) ""); [discriminate |].
  destruct (_validate_vars (variables cfg)) as [comment | e]; [| discriminate].
  cbn [bind] in Hrun. rewrite Hload in Hrun. cbn [bind] in Hrun.
  destruct (loop cfg comment
              {| out_tables := []; log := []; asked := []; net := net0 |} pts)
    as [st' | e] eqn:Hloop; [| discriminate].
  destruct (loop_counts cfg comment pts _ st' Hloop) as (Hl & Ha).
  cbn [bind] in Hrun.
  destruct (out_tables st'); [discriminate |].
  injection Hrun as <-. cbn [messages requests log asked] in *.
  simpl in Hl, Ha. split; assumption.
Qed.

Lemma silo_every_point_is_tried_witness :
  exists o,
    silo_points_quick data.three_points data.patchy data.drill = Return o
    /\ List.length (messages o) = 3%nat
    /\ List.length (requests o) = 3%nat.
Proof.
  destruct (silo_points_quick data.three_points data.patchy data.drill)
    as [o | e] eqn:Hrun.
  - exists o. split; [reflexivity |].
    apply (silo_every_point_is_tried data.three_points data.patchy data.drill
             [LonLat 149.123 (-35.456); LonLat 150 (-36);
              LonLat 151.02 (-34.98)]%float
             o); [left; reflexivity | reflexivity | exact Hrun].
  - exfalso. vm_compute in Hrun. discriminate.
Defined.

(** The two-decimal text of every grid cell within 180 degrees of zero
    is the decimal of the cell: the binary64 product [k * 0.05] never
    shows in the request. *)
Lemma grid_names_its_cell (k : Z) :
  -3600 <= k <= 3600 ->
  format_float 2 (grid k) = format_Q 2 (inject_Z k / 20).
Proof.
  intros Hk.
  assert (Hall : forallb names_its_cell (cells 3600) = true)
    by (vm_compute; reflexivity).
  rewrite forallb_forall in Hall.
  assert (Hin : In k (cells 3600)) by (apply (in_cells 3600); simpl; lia).
  apply String.eqb_eq. exact (Hall k Hin).
Qed.

(** X18. The data-drill request names the grid cell exactly: for
    coordinates whose binary64 quotients by 0.05 round to the cells
    [klon] and [klat] within 180 degrees of zero, the [lon] and [lat]
    parameters are the decimals [klon / 20] and [klat / 20] written with
    two digits, whatever the binary64 product [k * 0.05] is; the point
    enters the request through its two cells only. *)
Theorem datadrill_request_names_the_cell (lon lat : float) (klon klat : Z)
    (start finish comment username password fmt : string) :
  round_float (lon / 0.05)%float = Return klon -> -3600 <= klon <= 3600 ->
  round_float (lat / 0.05)%float = Return klat -> -3600 <= klat <= 3600 ->
  _datadrill_row lon lat start finish comment username password fmt
  = Return
      (SILO_BASE ++ "/DataDrillDataset.php",
       [("lon", format_Q 2 (inject_Z klon / 20));
        ("lat", format_Q 2 (inject_Z klat / 20));
        ("start", start); ("finish", finish); ("format", fmt);
        ("comment", comment); ("username", username); ("password", password)]).
Proof.
  intros Hlon Hklon Hlat Hklat. unfold _datadrill_row.
  rewrite (snap05_cell lon klon Hlon Hklon), (snap05_cell lat klat Hlat Hklat).
  cbn [bind].
  rewrite (grid_names_its_cell klon Hklon), (grid_names_its_cell klat Hklat).
  reflexivity.
Qed.

Lemma datadrill_request_names_the_cell_witness :
  _datadrill_row 3.275 (-35.456) "20190101" "20191231" "RX" "me" "pw" "csv"
  = Return
      (SILO_BASE ++ "/DataDrillDataset.php",
       [("lon", "3.30"); ("lat", "-35.45");
        ("start", "20190101"); ("finish", "20191231"); ("format", "csv");
        ("comment", "RX"); ("username", "me"); ("password", "pw")]).
Proof.
  apply (datadrill_request_names_the_cell 3.275 (-35.456) 66 (-709));
    try (vm_compute; reflexivity); lia.
Defined.

End SiloRun.

(** ** sof.py *)

Section SofMore.
Import py sof sof_columns.

Lemma first_bad_none (ok : string -> bool) (l : list string) :
  first_bad ok l = None <-> List.Forall (fun x => ok x = true) l.
Proof.
  unfold first_bad. induction l as [|x l IH]; simpl.
  - split; [constructor | reflexivity].
  - destruct (ok x) eqn:Hx; simpl.
    + rewrite IH. split; [intros H; constructor; assumption |].
      intros H. inversion H; assumption.
    + split; [discriminate |]. intros H. inversion H; congruence.
Qed.

(** X19. The validation of [sof_points_quick] passes exactly when every
    family and every fraction is a known one and either every depth is
    one of the three SOF depths or Stocks is among the families: with
    Stocks requested, any depth text passes, and the statistic is never
    checked. *)
Theorem sof_validation (cfg : SOFPointsConfig) :
  (exists pl, sof_points_quick_plan cfg = Return pl) <-> valid cfg.
Proof.
  unfold sof_points_quick_plan, valid.
  destruct (first_bad _ (families cfg)) as [fam |] eqn:Hfam.
  { split; [intros [pl H]; discriminate |]. intros (H & _ & _).
    exfalso.
    assert (Hnone : first_bad (fun fam => isin fam (map fst FAMILIES)) (families cfg)
                    = None).
    { apply first_bad_none. eapply List.Forall_impl; [| exact H].
      intros a Ha. apply isin_In. exact Ha. }
    congruence. }
  apply first_bad_none in Hfam.
  destruct (first_bad _ (fractions cfg)) as [frac |] eqn:Hfrac.
  { split; [intros [pl H]; discriminate |]. intros (_ & H & _).
    exfalso.
    assert (Hnone : first_bad (fun frac => isin frac FRACTIONS) (fractions cfg)
                    = None).
    { apply first_bad_none. eapply List.Forall_impl; [| exact H].
      intros a Ha. apply isin_In. exact Ha. }
    congruence. }
  apply first_bad_none in Hfrac.
  assert (Hfams : List.Forall (fun fam => In fam (map fst FAMILIES)) (families cfg)).
  { eapply List.Forall_impl; [| exact Hfam]. intros a Ha. apply isin_In. exact Ha. }
  assert (Hfracs : List.Forall (fun frac => In frac FRACTIONS) (fractions cfg)).
  { eapply List.Forall_impl; [| exact Hfrac]. intros a Ha. apply isin_In. exact Ha. }
  destruct (first_bad _ (depths cfg)) as [d |] eqn:Hd.
  - split; [intros [pl H]; discriminate |]. intros (_ & _ & H). exfalso.
    assert (Hnone : first_bad (fun d => isin d DEPTHS || isin "Stocks" (families cfg))
                      (depths cfg) = None).
    { apply first_bad_none. destruct H as [Hs | Hds].
      - apply List.Forall_forall. intros a _.
        apply orb_true_iff. right. apply isin_In. exact Hs.
      - eapply List.Forall_impl; [| exact Hds]. intros a Ha.
        apply orb_true_iff. left. apply isin_In. exact Ha. }
    congruence.
  - apply first_bad_none in Hd.
    split; [| intros _; eexists; reflexivity].
    intros _. split; [exact Hfams |]. split; [exact Hfracs |].
    destruct (isin "Stocks" (families cfg)) eqn:Hs.
    + left. apply isin_In. exact Hs.
    + right. eapply List.Forall_impl; [| exact Hd]. intros a Ha.
      cbv beta in Ha. rewrite ?Hs, orb_false_r in Ha. apply isin_In. exact Ha.
Qed.

Lemma sof_validation_witness :
  sof_points_quick_plan odd_depth
  = Return {| requests := [("Stocks", "000_030", "EV", "POC")];
              warnings := [("Proportions", "030_060", "05", "POC")] |}.
Proof.
  destruct (proj2 (sof_validation odd_depth)) as (pl & Hpl).
  - unfold valid. split; [repeat constructor; simpl; tauto |].
    split; [repeat constructor; simpl; tauto |]. left. simpl. tauto.
  - rewrite Hpl. vm_compute in Hpl. exact (eq_sym Hpl).
Defined.

Lemma planned_request_in (cfg : SOFPointsConfig) (pl : plan) (r : request) :
  sof_points_quick_plan cfg = Return pl -> In r (requests pl) ->
  available r = true
  /\ exists fam, In fam (families cfg) /\ In r (candidates cfg fam).
Proof.
  intros Hplan Hin. unfold sof_points_quick_plan in Hplan.
  destruct (first_bad _ (families cfg)); [discriminate |].
  destruct (first_bad _ (fractions cfg)); [discriminate |].
  destruct (first_bad _ (depths cfg)); [discriminate |].
  injection Hplan as <-. rewrite plan_candidates in Hin.
  cbn [requests app] in Hin. apply filter_In in Hin. destruct Hin as [Hin Hav].
  split; [exact Hav |]. apply in_flat_map in Hin. exact Hin.
Qed.

(** X20. The statistic of the configuration is not validated: with a
    statistic the table does not know, the run goes on, nothing is
    requested for the families other than Stocks, and each of their
    combinations is skipped with a warning. *)
Theorem sof_unknown_stat (cfg : SOFPointsConfig) (pl : plan) :
  sof_points_quick_plan cfg = Return pl ->
  ~ In (stat cfg) STATS ->
  (forall fam d st frac, In (fam, d, st, frac) (requests pl) -> fam = "Stocks")
  /\ (forall fam d frac,
        In fam (families cfg) -> fam <> "Stocks" ->
        In d (depths cfg) -> In frac (fractions cfg) ->
        In (fam, d, stat cfg, frac) (warnings pl)).
Proof.
  intros Hplan Hstat. split.
  - intros fam d st frac Hin.
    destruct (planned_request_in cfg pl _ Hplan Hin) as (Hav & fam' & _ & Hc).
    unfold candidates in Hc.
    destruct (String.eqb_spec fam' "Stocks") as [Hst | Hne].
    + apply in_map_iff in Hc. destruct Hc as (x & Heq & _). congruence.
    + exfalso. apply in_flat_map in Hc. destruct Hc as (d' & _ & Hc).
      apply in_map_iff in Hc. destruct Hc as (x & Heq & _).
      injection Heq as <- <- <- <-.
      unfold available, _sof_is_available in Hav.
      assert (Hno : isin (stat cfg) ["EV"; "05"; "95"] = false).
      { destruct (isin (stat cfg) ["EV"; "05"; "95"]) eqn:E; [| reflexivity].
        apply isin_In in E. contradiction. }
      assert (Hno2 : isin (stat cfg) ["05"; "95"] = false).
      { destruct (isin (stat cfg) ["05"; "95"]) eqn:E; [| reflexivity].
        apply isin_In in E. exfalso. apply Hstat. simpl in *. tauto. }
      rewrite Hno, Hno2, andb_false_r in Hav.
      destruct (String.eqb fam' "Fractions_Density"); [discriminate |].
      destruct (String.eqb fam' "Proportions").
      * destruct (String.eqb d' "000_005"); [discriminate |].
        destruct (isin d' ["005_015"; "015_030"]); discriminate.
      * destruct (String.eqb_spec fam' "Stocks"); [contradiction | discriminate].
  - intros fam d frac Hfam Hne Hd Hfrac.
    unfold sof_points_quick_plan in Hplan.
    destruct (first_bad _ (families cfg)); [discriminate |].
    destruct (first_bad _ (fractions cfg)); [discriminate |].
    destruct (first_bad _ (depths cfg)); [discriminate |].
    injection Hplan as <-. rewrite plan_candidates. cbn [warnings app].
    apply filter_In. split.
    + apply in_flat_map. exists fam. split; [exact Hfam |].
      unfold candidates. destruct (String.eqb_spec fam "Stocks"); [contradiction |].
      apply in_flat_map. exists d. split; [exact Hd |].
      apply in_map_iff. exists frac. split; [reflexivity | exact Hfrac].
    + apply negb_true_iff. unfold available, _sof_is_available.
      assert (Hno : isin (stat cfg) ["EV"; "05"; "95"] = false).
      { destruct (isin (stat cfg) ["EV"; "05"; "95"]) eqn:E; [| reflexivity].
        apply isin_In in E. contradiction. }
      assert (Hno2 : isin (stat cfg) ["05"; "95"] = false).
      { destruct (isin (stat cfg) ["05"; "95"]) eqn:E; [| reflexivity].
        apply isin_In in E. exfalso. apply Hstat. simpl in *. tauto. }
      rewrite Hno, Hno2, andb_false_r.
      destruct (String.eqb fam "Fractions_Density"); [reflexivity |].
      destruct (String.eqb fam "Proportions").
      * destruct (String.eqb d "000_005"); [reflexivity |].
        destruct (isin d ["005_015"; "015_030"]); reflexivity.
      * destruct (String.eqb_spec fam "Stocks"); [contradiction | reflexivity].
Qed.

Lemma sof_unknown_stat_witness :
  exists pl,
    sof_points_quick_plan odd_stat = Return pl
    /\ In ("Fractions_Density", "000_005", "50", "MAOC") (warnings pl).
Proof.
  destruct (sof_points_quick_plan odd_stat) as [pl | e] eqn:Hplan.
  - exists pl. split; [reflexivity |].
    apply (proj2 (sof_unknown_stat odd_stat pl Hplan
                    ltac:(simpl; intros [H | [H | [H | []]]]; discriminate))
             "Fractions_Density" "000_005" "MAOC");
      simpl; try tauto. discriminate.
  - exfalso. vm_compute in Hplan. discriminate.
Defined.

Lemma planned_request_in_universe (cfg : SOFPointsConfig) (pl : plan)
    (r : request) :
  sof_points_quick_plan cfg = Return pl -> In r (requests pl) -> In r universe.
Proof.
  intros Hplan Hin.
  destruct (planned_request_in cfg pl r Hplan Hin) as (Hav & fam & Hfam & Hc).
  assert (Hvalid : valid cfg) by (apply sof_validation; eexists; exact Hplan).
  destruct Hvalid as (Hfams & Hfracs & _).
  rewrite List.Forall_forall in Hfams, Hfracs.
  specialize (Hfams fam Hfam).
  assert (Hr : exists d st frac, r = (fam, d, st, frac) /\ In frac FRACTIONS).
  { unfold candidates in Hc. destruct (String.eqb fam "Stocks").
    - apply in_map_iff in Hc. destruct Hc as (frac & <- & Hfrac).
      eexists. eexists. eexists. split; [reflexivity | apply Hfracs; exact Hfrac].
    - apply in_flat_map in Hc. destruct Hc as (d & _ & Hc).
      apply in_map_iff in Hc. destruct Hc as (frac & <- & Hfrac).
      eexists. eexists. eexists. split; [reflexivity | apply Hfracs; exact Hfrac]. }
  destruct Hr as (d & st & frac & -> & Hfrac).
  assert (Hds : In d ["000_005"; "005_015"; "015_030"; "000_030"] /\ In st STATS).
  { unfold available, _sof_is_available in Hav. simpl in Hfams.
    destruct Hfams as [<- | [<- | [<- | []]]];
      cbn [String.eqb Ascii.eqb Bool.eqb] in Hav.
    - apply andb_true_iff in Hav. destruct Hav as [Hd Hs].
      apply isin_In in Hd, Hs. simpl in *. tauto.
    - destruct (String.eqb_spec d "000_005") as [-> | _].
      + apply isin_In in Hav. simpl in *. tauto.
      + destruct (isin d ["005_015"; "015_030"]) eqn:Hd; [| discriminate].
        apply isin_In in Hd, Hav. simpl in *. tauto.
    - apply andb_true_iff in Hav. destruct Hav as [Hd Hs].
      apply String.eqb_eq in Hd, Hs. subst. simpl. tauto. }
  destruct Hds as [Hd Hs]. unfold universe.
  apply in_flat_map. exists fam. split; [exact Hfams |].
  apply in_flat_map. exists d. split; [exact Hd |].
  apply in_flat_map. exists st. split; [exact Hs |].
  apply in_map_iff. exists frac. split; [reflexivity | exact Hfrac].
Qed.

Lemma request_eqb_eq (r1 r2 : request) : request_eqb r1 r2 = true -> r1 = r2.
Proof.
  destruct r1 as [[[f1 d1] s1] c1], r2 as [[[f2 d2] s2] c2]. unfold request_eqb.
  rewrite !andb_true_iff, !String.eqb_eq. intros [[[-> ->] ->] ->]. reflexivity.
Qed.

Lemma universe_separate :
  forallb (fun r1 => forallb (fun r2 => separate r1 r2)
                       (List.filter available universe))
          (List.filter available universe) = true.
Proof. vm_compute. reflexivity. Qed.

(** X21. In a validated run two different requests never share an output
    column nor a file: requests with the same column name, or with the
    same URL, are the same request. *)
Theorem sof_requests_do_not_collide (cfg : SOFPointsConfig) (pl : plan)
    (r1 r2 : request) :
  sof_points_quick_plan cfg = Return pl ->
  In r1 (requests pl) -> In r2 (requests pl) ->
  column_of r1 = column_of r2
  \/ (exists url, url_of r1 = Return url /\ url_of r2 = Return url) ->
  r1 = r2.
Proof.
  intros Hplan H1 H2 Hsame.
  assert (Hu : forall r, In r (requests pl) -> In r (List.filter available universe)).
  { intros r Hr. apply filter_In. split.
    - exact (planned_request_in_universe cfg pl r Hplan Hr).
    - exact (proj1 (planned_request_in cfg pl r Hplan Hr)). }
  pose proof universe_separate as Hall.
  rewrite forallb_forall in Hall. specialize (Hall r1 (Hu r1 H1)).
  rewrite forallb_forall in Hall. specialize (Hall r2 (Hu r2 H2)).
  unfold separate in Hall. apply request_eqb_eq.
  destruct (request_eqb r1 r2); [reflexivity |]. exfalso.
  destruct Hsame as [Hcol | (url & Hu1 & Hu2)].
  - rewrite Hcol, String.eqb_refl in Hall. discriminate.
  - rewrite Hu1, Hu2 in Hall. cbn [result_eqb] in Hall.
    rewrite String.eqb_refl, orb_true_r in Hall. discriminate.
Qed.

Lemma sof_requests_do_not_collide_witness :
  ("Proportions", "000_005", "EV", "MAOC")
  = ("Proportions", "000_005", "EV", "MAOC").
Proof.
  apply (sof_requests_do_not_collide data.proportions_ev
           {| requests := [("Proportions", "000_005", "EV", "MAOC");
                           ("Proportions", "000_005", "EV", "POC")];
              warnings := [("Proportions", "015_030", "EV", "MAOC");
                           ("Proportions", "015_030", "EV", "POC")] |}).
  - vm_compute. reflexivity.
  - simpl. tauto.
  - simpl. tauto.
  - left. reflexivity.
Defined.

End SofMore.

(** ** collections.py *)

Section CollectionsMore.
Import collections indices.

Lemma land_bit_zero (a : Z) (n : Z) :
  0 <= n -> (Z.land a (Z.shiftl 1 n) =? 0) = negb (Z.testbit a n).
Proof.
  intros Hn. rewrite Z.shiftl_1_l.
  destruct (Z.testbit a n) eqn:Hbit; simpl.
  - apply Z.eqb_neq. intros H0.
    assert (Hb : Z.testbit (Z.land a (2 ^ n)) n = true)
      by (rewrite Z.land_spec, Hbit, Z.pow2_bits_true by lia; reflexivity).
    rewrite H0, Z.bits_0 in Hb. discriminate.
  - apply Z.eqb_eq. apply Z.bits_inj'. intros m Hm.
    rewrite Z.land_spec, Z.bits_0, Z.pow2_bits_eqb by lia.
    destruct (Z.eqb_spec n m) as [<- | _].
    + rewrite Hbit. reflexivity.
    + apply andb_false_r.
Qed.

(** X22. The cloud mask keeps a pixel exactly when bit 10 and bit 11 of
    its QA60 value are both zero; no other bit of the value matters. *)
Theorem clear_sky_bits (qa : Z) :
  clear_sky qa = true <-> Z.testbit qa 10 = false /\ Z.testbit qa 11 = false.
Proof.
  unfold clear_sky. rewrite !land_bit_zero by lia.
  rewrite andb_true_iff, !negb_true_iff. reflexivity.
Qed.

Lemma select_found (img : Image) (l : list string) :
  has_bands img l = true ->
  exists found,
    map_computed
      (fun b => match band_of img b with
                | Some p => Value p
                | None => Failure ("Image.select: Pattern '" ++ b
                                     ++ "' did not match any bands.")
                end) l
    = Value found
    /\ map Some found = map (band_of img) l.
Proof.
  unfold has_bands. induction l as [|b l IH]; intros H.
  - exists []. split; reflexivity.
  - cbn [forallb] in H. apply andb_true_iff in H. destruct H as [Hb Hl].
    destruct (IH Hl) as (found & Hf & Hmap).
    destruct (band_of_has_name img b Hb) as (p & Hp).
    exists (p :: found). cbn [map_computed]. rewrite Hp, Hf. cbn [required map].
    rewrite Hmap, Hp. split; reflexivity.
Qed.

Lemma select_not_found (img : Image) (l : list string) :
  has_bands img l = false ->
  cases_indices.failed
    (map_computed
       (fun b => match band_of img b with
                 | Some p => Value p
                 | None => Failure ("Image.select: Pattern '" ++ b
                                      ++ "' did not match any bands.")
                 end) l).
Proof.
  unfold has_bands. induction l as [|b l IH]; intros H; [discriminate |].
  cbn [forallb] in H. cbn [map_computed].
  destruct (band_of img b) as [p |] eqn:Hp; [| eexists; reflexivity].
  cbn [required]. apply andb_false_iff in H. destruct H as [Hb | Hl].
  - exfalso. unfold band_of in Hp.
    destruct (List.find _ (bands img)) as [bd |] eqn:Hf; [| discriminate].
    apply find_some in Hf. destruct Hf as [Hf Heq].
    apply String.eqb_eq in Heq. subst b.
    assert (has_name (bandNames img) (band_name bd) = true).
    { apply has_name_true. unfold bandNames. apply in_map. exact Hf. }
    congruence.
  - destruct (IH Hl) as (msg & ->). exists msg. reflexivity.
Qed.

Lemma combine_names (names : list string) (found : list pixels) :
  List.length names = List.length found ->
  map band_name
    (map (fun p : string * pixels => mkBand (fst p) (snd p)) (combine names found))
  = names
  /\ map band_data
       (map (fun p : string * pixels => mkBand (fst p) (snd p)) (combine names found))
     = found.
Proof.
  revert found. induction names as [|n names IH]; intros [|p found] Hlen;
    try discriminate; [split; reflexivity |].
  simpl in Hlen. injection Hlen as Hlen. destruct (IH found Hlen) as [Hn Hd].
  simpl. rewrite Hn, Hd. split; reflexivity.
Qed.

(** X23. [select_s2_bands] succeeds exactly on the images that have the
    ten source bands.  Its result has the ten canonical bands and no
    other, in the canonical order, each with the pixels of its source
    band, and the metadata of the image; so every index of the registry
    can be computed on it. *)
Theorem select_s2_bands_canonical (img : Image) :
  (has_bands img bands_src = false -> cases_indices.failed (select_s2_bands img))
  /\ (has_bands img bands_src = true ->
      exists img',
        select_s2_bands img = Value img'
        /\ bandNames img' = CANONICAL
        /\ map Some (composer.band_pixels img') = map (band_of img) bands_src
        /\ props img' = props img
        /\ forall names, exists out, apply_indices img' names = Value out).
Proof.
  unfold select_s2_bands, select_as. split.
  - intros H. destruct (select_not_found img bands_src H) as (msg & ->).
    exists msg. reflexivity.
  - intros H. destruct (select_found img bands_src H) as (found & -> & Hmap).
    assert (Hlen : List.length bands_dst = List.length found).
    { apply (f_equal (@List.length _)) in Hmap. rewrite !length_map in Hmap.
      rewrite Hmap. reflexivity. }
    cbn [required]. rewrite Hlen, Nat.eqb_refl.
    destruct (combine_names bands_dst found Hlen) as [Hn Hd].
    eexists. split; [reflexivity |]. unfold bandNames, composer.band_pixels.
    cbn [bands props]. rewrite Hn, Hd.
    split; [reflexivity |]. split; [exact Hmap |]. split; [reflexivity |].
    intros names.
    match goal with
    | |- exists out, apply_indices ?i names = _ =>
        destruct (apply_indices_shape i names) as (more & flag & ->)
    end.
    + unfold has_bands, bandNames. cbn [bands]. rewrite Hn. reflexivity.
    + eexists. reflexivity.
Qed.

Lemma select_s2_bands_canonical_witness :
  exists out,
    ee.required "Image.select" "input" (select_s2_bands raw_scene)
      (fun img' => apply_indices img' (Some [Some "ndmi"; Some "gci"]))
    = Value out.
Proof.
  destruct (proj2 (select_s2_bands_canonical raw_scene))
    as (img' & -> & _ & _ & _ & Hidx).
  - vm_compute. reflexivity.
  - exact (Hidx (Some [Some "ndmi"; Some "gci"])).
Defined.

End CollectionsMore.

(** ** panels.py and utils.py *)

Section PanelsMore.
Import py panels.

Lemma split_on_plain (c : ascii) (s : string) :
  has_char c s = false -> split_on c s = [s].
Proof.
  induction s as [|x s IH]; [reflexivity |]. cbn [has_char split_on].
  intros H. apply orb_false_iff in H. destruct H as [Hx Hs].
  rewrite Hx, (IH Hs). reflexivity.
Qed.

Lemma split_on_app (c : ascii) (s rest : string) :
  has_char c s = false ->
  split_on c (s ++ String c rest) = s :: split_on c rest.
Proof.
  induction s as [|x s IH].
  - intros _. simpl. rewrite Ascii.eqb_refl. reflexivity.
  - intros H. simpl in H. apply orb_false_iff in H.
    destruct H as [Hx Hs]. simpl. rewrite Hx, (IH Hs). reflexivity.
Qed.

Lemma parse_join (s : string) (l : list string) :
  List.Forall plain (s :: l) ->
  parse_indices (String.concat "," (s :: l)) = s :: l.
Proof.
  revert s. induction l as [|s' l IH]; intros s Hall.
  - inversion Hall as [|? ? (Hstrip & Hne & Hcomma) _]; subst.
    unfold parse_indices. cbn [String.concat]. rewrite (split_on_plain _ _ Hcomma).
    cbn [List.filter]. rewrite Hstrip.
    destruct (String.eqb_spec s "") as [-> | _]; [contradiction |].
    cbn [negb map]. rewrite Hstrip. reflexivity.
  - inversion Hall as [|? ? (Hstrip & Hne & Hcomma) Hrest]; subst.
    specialize (IH s' Hrest). unfold parse_indices in *.
    change (String.concat "," (s :: s' :: l))
      with (s ++ String "," (String.concat "," (s' :: l))).
    rewrite (split_on_app _ _ _ Hcomma). cbn [List.filter]. rewrite Hstrip.
    destruct (String.eqb_spec s "") as [-> | _]; [contradiction |].
    cbn [negb map]. rewrite Hstrip, IH. reflexivity.
Qed.

(** X24. Showing a configuration in the panel and reading it back gives
    the same configuration, when its index names are plain (not empty,
    no comma, no blank at the ends), its ROI path and asset are not the
    empty text, and the fields the panel does not show hold their
    defaults; whatever the configuration, an empty ROI text is read back
    as no value. *)
Theorem panel_round_trip (cfg : Config) :
  (panel_sized cfg ->
   List.Forall plain (indices cfg) ->
   roi_path cfg <> Some "" -> roi_ee_asset cfg <> Some "" ->
   get_config (build_user_panel cfg) = cfg)
  /\ roi_path (get_config (build_user_panel cfg)) <> Some ""
  /\ roi_ee_asset (get_config (build_user_panel cfg)) <> Some "".
Proof.
  assert (Hor : forall x : option string, or_None (or_empty x) <> Some "").
  { intros [x |]; unfold or_None, or_empty; simpl.
    - destruct (String.eqb_spec x "") as [-> | Hne]; [discriminate |].
      intros [= ->]. contradiction.
    - discriminate. }
  assert (Hid : forall x : option string, x <> Some "" -> or_None (or_empty x) = x).
  { intros [x |] Hx; unfold or_None, or_empty; simpl; [| reflexivity].
    destruct (String.eqb_spec x "") as [-> | _]; [contradiction | reflexivity]. }
  split; [| split; apply Hor].
  intros (Hcrs & Hcol & Hroot & Hmax & Hfc & Hsize) Hplain Hpath Hasset.
  assert (Hidx : parse_indices (String.concat "," (indices cfg)) = indices cfg).
  { destruct (indices cfg) as [|s l]; [reflexivity |]. apply parse_join. exact Hplain. }
  unfold get_config, build_user_panel, make_Config.
  cbn [area year roi_path_text roi_asset_text dstart dend indices_text scale
       preview_box make_csv_box make_parquet_box].
  rewrite (Hid _ Hpath), (Hid _ Hasset), Hidx.
  destruct cfg.
  cbn [area_name yield_year roi_path roi_ee_asset crs_local date_start date_end
       collections indices export_root pixel_scale max_pixels preview
       make_parquet make_csv sample_points_fc sample_size] in *.
  subst. reflexivity.
Qed.

Lemma panel_round_trip_witness :
  get_config (build_user_panel panels.example) = panels.example.
Proof.
  apply (proj1 (panel_round_trip panels.example)).
  - repeat split.
  - repeat constructor; discriminate.
  - discriminate.
  - discriminate.
Defined.

Lemma list_ascii_round (l : list ascii) :
  list_ascii_of_string (string_of_list_ascii l) = l.
Proof. induction l as [|c l IH]; simpl; [reflexivity | now rewrite IH]. Qed.

(** X25. [make_name] joins the area, the year and the stem with
    underscores, each character of the stem outside letters, digits,
    underscore and hyphen replaced by an underscore: the cleaned stem
    has the length of the stem, holds only those characters, and is left
    as it is by a second cleaning.  The area goes in unchanged. *)
Theorem make_name_stem (area stem : string) (year : Z) :
  exists cleaned,
    runner.make_name area year stem
    = area ++ "_" ++ string_of_Z year ++ "_" ++ cleaned
    /\ String.length cleaned = String.length stem
    /\ utils.kept cleaned
    /\ runner.make_name area year cleaned = runner.make_name area year stem
    /\ (utils.kept stem -> cleaned = stem).
Proof.
  unfold runner.make_name.
  set (clean := fun c => if runner.keep_char c then c else "_"%char).
  exists (string_of_list_ascii (map clean (list_ascii_of_string stem))).
  assert (Hkept : forall c, runner.keep_char (clean c) = true).
  { intros c. unfold clean. destruct (runner.keep_char c) eqn:Hc;
      [exact Hc | reflexivity]. }
  assert (Hfix : forall l, List.Forall (fun c => runner.keep_char c = true) l ->
                           map clean l = l).
  { induction 1 as [|c l Hc _ IH]; [reflexivity |]. simpl. rewrite IH.
    unfold clean. rewrite Hc. reflexivity. }
  split; [reflexivity |]. split.
  - rewrite <- (string_of_list_ascii_of_string stem) at 2.
    generalize (list_ascii_of_string stem). intros l.
    induction l as [|c l IH]; simpl; [reflexivity | now rewrite IH].
  - split.
    + unfold utils.kept. rewrite list_ascii_round. apply List.Forall_forall.
      intros c Hc. apply in_map_iff in Hc. destruct Hc as (c0 & <- & _).
      apply Hkept.
    + split.
      * rewrite list_ascii_round. rewrite Hfix; [reflexivity |].
        apply List.Forall_forall. intros c Hc. apply in_map_iff in Hc.
        destruct Hc as (c0 & <- & _). apply Hkept.
      * intros Hstem. unfold utils.kept in Hstem. rewrite (Hfix _ Hstem).
        apply string_of_list_ascii_of_string.
Qed.

End PanelsMore.

(** ** export.py and roi.py *)

Section ExportMore.
Import py export_tables.

Lemma row_of_spec (f : Feature) (r : gmap string value) :
  row_of f = Some r ->
  (forall k, k <> "lon" -> k <> "lat" -> r !! k = props_of f !! k)
  /\ (is_point f = false -> r = props_of f)
  /\ (is_point f = true ->
      exists lon lat rest,
        coords_of f = lon :: lat :: rest
        /\ r !! "lon" = Some lon /\ r !! "lat" = Some lat).
Proof.
  unfold row_of. destruct (is_point f).
  - destruct (coords_of f) as [|lon [|lat rest]]; try discriminate.
    intros [= <-]. split; [| split; [discriminate |]].
    + intros k Hlon Hlat.
      rewrite lookup_insert_ne by congruence.
      rewrite lookup_insert_ne by congruence. reflexivity.
    + intros _. exists lon, lat, rest. split; [reflexivity |].
      split; [| apply lookup_insert_eq].
      rewrite lookup_insert_ne by discriminate. apply lookup_insert_eq.
  - intros [= <-]. split; [reflexivity |]. split; [reflexivity | discriminate].
Qed.

(** X26. [_fc_points_to_df] makes one row per feature, in order.  The
    row holds the properties of the feature; for a Point feature its
    [lon] and [lat] are the first two coordinates, whatever the
    properties said under those names; a feature that is not a Point
    gets its properties and nothing else.  It fails exactly when a Point
    feature has fewer than two coordinates. *)
Theorem fc_points_rows (feats : list Feature) :
  match _fc_points_to_df feats with
  | Some rows =>
      Forall2 (fun f r =>
          (forall k, k <> "lon" -> k <> "lat" -> r !! k = props_of f !! k)
          /\ (is_point f = false -> r = props_of f)
          /\ (is_point f = true ->
              exists lon lat rest,
                coords_of f = lon :: lat :: rest
                /\ r !! "lon" = Some lon /\ r !! "lat" = Some lat))
        feats rows
  | None =>
      exists f, In f feats /\ is_point f = true
                /\ (List.length (coords_of f) < 2)%nat
  end.
Proof.
  induction feats as [|f feats IH]; [constructor |].
  cbn [_fc_points_to_df]. destruct (row_of f) as [r |] eqn:Hr.
  - destruct (_fc_points_to_df feats) as [rows |].
    + constructor; [exact (row_of_spec f r Hr) | exact IH].
    + destruct IH as (g & Hg & Hp & Hc). exists g.
      split; [now right | split; assumption].
  - exists f. split; [now left |]. unfold row_of in Hr.
    destruct (is_point f); [| discriminate]. split; [reflexivity |].
    destruct (coords_of f) as [|lon [|lat rest]]; try discriminate; simpl; lia.
Qed.

Lemma fc_points_rows_witness :
  exists r1 r2,
    _fc_points_to_df [sampled; outline] = Some [r1; r2]
    /\ r1 !! "lon" = Some (VNum 149.1%Q)
    /\ r1 !! "NDVI_2018-01" = Some (VNum 0.61%Q)
    /\ r2 = ∅.
Proof.
  pose proof (fc_points_rows [sampled; outline]) as H.
  destruct (_fc_points_to_df [sampled; outline]) as [rows |] eqn:Hrows.
  - inversion H as [| f1 r1 l1 rows1 (Hk1 & _ & Hp1) H2]; subst.
    inversion H2 as [| f2 r2 l2 rows2 (_ & Hn2 & _) H3]; subst.
    inversion H3; subst. exists r1, r2. split; [reflexivity |].
    destruct (Hp1 eq_refl) as (lon & lat & rest & Hc & Hlon & _).
    injection Hc as <- _ _. split; [exact Hlon |].
    split; [rewrite Hk1 by discriminate; reflexivity |].
    apply Hn2. reflexivity.
  - exfalso. vm_compute in Hrows. discriminate.
Defined.

End ExportMore.

Section RoiMore.
Import py roi.

(** X27. [load_roi] takes the asset when one is given and then reads no
    file; it raises [ValueError] when both the path and the asset are
    absent or empty.  The configuration check only refuses a
    configuration in which both are absent: with an empty text as path
    and no asset the check passes and [load_roi] raises. *)
Theorem load_roi_sources (read_file : string -> result string)
    (path asset : option string) :
  (given asset = true ->
   load_roi read_file path asset = Return (FromAsset (default "" asset)))
  /\ (given asset = false -> given path = false ->
      load_roi read_file path asset
      = Raise (ValueError "Provide roi_path or roi_ee_asset"))
  /\ (forall (w : runner.world) (cfg : runner.Config),
        runner.makedirs w = Return tt ->
        runner.area_name cfg <> "" ->
        String.leb (runner.date_start cfg) (runner.date_end cfg) = true ->
        runner.roi_path cfg = Some "" ->
        given (runner.roi_ee_asset cfg) = false ->
        runner.validate w cfg = Return tt
        /\ load_roi read_file (runner.roi_path cfg) (runner.roi_ee_asset cfg)
           = Raise (ValueError "Provide roi_path or roi_ee_asset")).
Proof.
  split; [| split].
  - intros Ha. unfold load_roi. rewrite Ha. reflexivity.
  - intros Ha Hp. unfold load_roi. rewrite Ha, Hp. reflexivity.
  - intros w cfg Hdirs Harea Hdates Hpath Hasset. split.
    + unfold runner.validate.
      destruct (String.eqb_spec (runner.area_name cfg) ""); [contradiction |].
      rewrite Hdates, Hpath. cbn [negb]. exact Hdirs.
    + unfold load_roi. rewrite Hasset, Hpath. reflexivity.
Qed.

Lemma load_roi_sources_witness :
  runner.validate data.fine roi.empty_path = Return tt
  /\ load_roi (fun _ => Return "polygon") (runner.roi_path roi.empty_path)
       (runner.roi_ee_asset roi.empty_path)
     = Raise (ValueError "Provide roi_path or roi_ee_asset").
Proof.
  apply (proj2 (proj2 (load_roi_sources (fun _ => Return "polygon") None None))
           data.fine roi.empty_path).
  - reflexivity.
  - discriminate.
  - vm_compute. reflexivity.
  - reflexivity.
  - reflexivity.
Defined.

End RoiMore.

(** ** slga.py *)

Section SlgaMore.
Import py slga.

Lemma find_none_forall (p : string -> bool) (l : list string) :
  List.find p l = None <-> List.Forall (fun x => p x = false) l.
Proof.
  induction l as [|x l IH]; cbn [List.find].
  - split; [constructor | reflexivity].
  - destruct (p x) eqn:Hx.
    + split; [discriminate |]. intros H. inversion H; subst. congruence.
    + rewrite IH. split.
      * intros H. constructor; assumption.
      * intros H. inversion H; assumption.
Qed.

Lemma validate_cfg_accepts (repr : list string -> string)
    (cfg : SLGAPointsConfig) :
  _validate_cfg repr cfg = Return tt
  <-> List.Forall (fun a => In a keys) (attributes cfg)
      /\ In (stat cfg) SLGA_STATS
      /\ List.Forall (fun d => In d SLGA_DEPTHS) (depths cfg).
Proof.
  unfold _validate_cfg.
  assert (Ha : List.filter (fun a => negb (ee.has_name keys a)) (attributes cfg) = []
               <-> List.Forall (fun a => In a keys) (attributes cfg)).
  { rewrite filter_nil_iff.
    split; intros H; eapply List.Forall_impl; try exact H; intros a Hv.
    - apply has_name_true. apply negb_false_iff. exact Hv.
    - apply negb_false_iff. apply has_name_true. exact Hv. }
  assert (Hd : List.find (fun d => negb (ee.has_name SLGA_DEPTHS d)) (depths cfg) = None
               <-> List.Forall (fun d => In d SLGA_DEPTHS) (depths cfg)).
  { rewrite find_none_forall.
    split; intros H; eapply List.Forall_impl; try exact H; intros a Hv.
    - apply has_name_true. apply negb_false_iff. exact Hv.
    - apply negb_false_iff. apply has_name_true. exact Hv. }
  destruct (List.filter _ (attributes cfg)) as [|b bad].
  - destruct (ee.has_name SLGA_STATS (stat cfg)) eqn:Hs; cbn [negb].
    + apply has_name_true in Hs.
      destruct (List.find _ (depths cfg)) as [d |].
      * split; [discriminate |]. intros (_ & _ & H).
        apply Hd in H. discriminate.
      * split; [| reflexivity]. intros _.
        split; [apply Ha; reflexivity |]. split; [exact Hs |].
        apply Hd. reflexivity.
    + split; [discriminate |]. intros (_ & H & _).
      apply has_name_true in H. congruence.
  - split; [discriminate |]. intros (H & _). apply Ha in H. discriminate.
Qed.

(** X28. [_validate_cfg] accepts a configuration exactly when every
    attribute is a key of [SLGA_ATTRIBUTES], the statistic is one of
    [SLGA_STATS] and every depth is one of [SLGA_DEPTHS]; empty lists of
    attributes or depths are accepted.  Every refusal is a
    [ValueError]. *)
Theorem slga_validate_cfg_outcome (repr : list string -> string)
    (cfg : SLGAPointsConfig) :
  match _validate_cfg repr cfg with
  | Return _ =>
      List.Forall (fun a => In a keys) (attributes cfg)
      /\ In (stat cfg) SLGA_STATS
      /\ List.Forall (fun d => In d SLGA_DEPTHS) (depths cfg)
  | Raise e =>
      (exists msg, e = ValueError msg)
      /\ ~ (List.Forall (fun a => In a keys) (attributes cfg)
            /\ In (stat cfg) SLGA_STATS
            /\ List.Forall (fun d => In d SLGA_DEPTHS) (depths cfg))
  end.
Proof.
  pose proof (validate_cfg_accepts repr cfg) as Hacc.
  destruct (_validate_cfg repr cfg) as [[] | e] eqn:Hv.
  - apply Hacc. reflexivity.
  - split.
    + unfold _validate_cfg in Hv.
      destruct (List.filter _ (attributes cfg)).
      * destruct (negb _).
        -- injection Hv as <-. eexists. reflexivity.
        -- destruct (List.find _ (depths cfg)); [| discriminate].
           injection Hv as <-. eexists. reflexivity.
      * injection Hv as <-. eexists. reflexivity.
    + intros H. apply Hacc in H. discriminate.
Qed.

Lemma NoDup_flat_map_map {A B C : Type} (f : A -> B -> C)
    (la : list A) (lb : list B) :
  List.NoDup la -> List.NoDup lb ->
  (forall a b a' b', In a la -> In b lb -> In a' la -> In b' lb ->
                     f a b = f a' b' -> a = a' /\ b = b') ->
  List.NoDup (flat_map (fun a => map (f a) lb) la).
Proof.
  intros Hla Hlb Hinj. induction la as [|a la IH]; [constructor |].
  cbn [flat_map]. inversion Hla as [| a0 la0 Hnotin Hla']; subst.
  apply List.NoDup_app.
  - apply List.NoDup_map_NoDup_ForallPairs; [| exact Hlb].
    intros b b' Hb Hb' Heq.
    exact (proj2 (Hinj a b a b' (or_introl eq_refl) Hb (or_introl eq_refl) Hb' Heq)).
  - apply IH; [exact Hla' |]. intros a1 b a2 b' H1 Hb H2 Hb'.
    apply Hinj; [now right | exact Hb | now right | exact Hb'].
  - intros c Hc1 Hc2. apply in_map_iff in Hc1 as (b & <- & Hb).
    apply in_flat_map in Hc2 as (a' & Ha' & Hc2).
    apply in_map_iff in Hc2 as (b' & Heq & Hb').
    destruct (Hinj a' b' a b (or_intror Ha') Hb' (or_introl eq_refl) Hb Heq)
      as [-> _].
    contradiction.
Qed.

Lemma tables_separate :
  forallb (fun s =>
    forallb (fun a =>
      forallb (fun d =>
        forallb (fun a' =>
          forallb (fun d' => separate s a d a' d') SLGA_DEPTHS) keys)
        SLGA_DEPTHS) keys) SLGA_STATS = true.
Proof. vm_compute. reflexivity. Qed.

Lemma band_injective (s a d a' d' : string) :
  In s SLGA_STATS -> In a keys -> In d SLGA_DEPTHS ->
  In a' keys -> In d' SLGA_DEPTHS ->
  band a s d = band a' s d' -> a = a' /\ d = d'.
Proof.
  intros Hs Ha Hd Ha' Hd' Heq. pose proof tables_separate as H.
  rewrite forallb_forall in H. specialize (H s Hs).
  rewrite forallb_forall in H. specialize (H a Ha).
  rewrite forallb_forall in H. specialize (H d Hd).
  rewrite forallb_forall in H. specialize (H a' Ha').
  rewrite forallb_forall in H. specialize (H d' Hd').
  unfold separate in H. rewrite Heq, String.eqb_refl in H. cbn [implb] in H.
  apply andb_true_iff in H as [H1 H2].
  apply String.eqb_eq in H1, H2. split; assumption.
Qed.

Lemma length_selected_bands (attrs : list string) (s : string)
    (ds : list string) :
  List.length (selected_bands attrs s ds)
  = (List.length attrs * List.length ds)%nat.
Proof.
  unfold selected_bands. induction attrs as [|a l IH]; [reflexivity |].
  cbn [flat_map List.length Nat.mul]. rewrite List.length_app, IH.
  unfold bands. rewrite List.length_map. reflexivity.
Qed.

(** X29. For a configuration that [_validate_cfg] accepts and that
    repeats no attribute and no depth, the band names that
    [_build_slga_image] selects are pairwise different, one for every
    pair of an attribute and a depth. *)
Theorem slga_selected_bands_distinct (repr : list string -> string)
    (cfg : SLGAPointsConfig) :
  _validate_cfg repr cfg = Return tt ->
  List.NoDup (attributes cfg) -> List.NoDup (depths cfg) ->
  List.NoDup (selected_bands (attributes cfg) (stat cfg) (depths cfg))
  /\ List.length (selected_bands (attributes cfg) (stat cfg) (depths cfg))
     = (List.length (attributes cfg) * List.length (depths cfg))%nat.
Proof.
  intros Hv Ha Hd. apply validate_cfg_accepts in Hv as (Hattrs & Hstat & Hdepths).
  rewrite List.Forall_forall in Hattrs, Hdepths. split.
  - unfold selected_bands, bands.
    apply (NoDup_flat_map_map (fun a d => band a (stat cfg) d)); [exact Ha | exact Hd |].
    intros a d a' d' H1 H2 H3 H4 Heq.
    apply (band_injective (stat cfg)); auto.
  - apply length_selected_bands.
Qed.

Lemma slga_selected_bands_distinct_witness :
  List.NoDup (selected_bands ["SOC"] "EV" ["000_005"; "005_015"; "015_030"])
  /\ List.length (selected_bands ["SOC"] "EV" ["000_005"; "005_015"; "015_030"])
     = 3%nat.
Proof.
  apply (slga_selected_bands_distinct (fun _ => "[]")
           (make_SLGAPointsConfig "farm" "points.gpkg")).
  - vm_compute. reflexivity.
  - repeat constructor; cbn; intuition discriminate.
  - repeat constructor; cbn; intuition discriminate.
Defined.

(** Without the validation the names can coincide. *)
Example unvalidated_bands_clash :
  List.NoDup (attributes clashing) /\ List.NoDup (depths clashing)
  /\ ~ List.NoDup (selected_bands (attributes clashing) (stat clashing)
                     (depths clashing)).
Proof.
  split; [repeat constructor; cbn; intuition discriminate |].
  split; [repeat constructor; cbn; intuition discriminate |].
  intros H. vm_compute in H.
  inversion H as [| x1 l1 Hnotin _]; subst.
  apply Hnotin. right. right. left. reflexivity.
Qed.

End SlgaMore.
